(** * A shallow embedding of [gpt.py], the OpenAI file-parse wrapper

    The module has four parts, embedded here in the order of the source:
    - [attribute_puller], the nested attribute reader;
    - [EventHandler], the streaming callback object, whose
      [on_message_done] rewrites citation markers;
    - [GPT], the manager caching an assistant, an uploaded file and a
      thread, and talking to the remote service through [client];
    - [send_pdf_to_openai], the one-shot entry point.

    Python exceptions are the [Raise] branch of [outcome]; the logger, the
    remote service, and the store of [GPT] instances are threaded through
    an explicit state. *)

From Stdlib Require Import DecimalString DecimalNat.
From stdpp Require Import gmap strings list fin_maps.

(** ** Python values, truthiness and attribute access *)

Inductive exn : Type :=
  | RuntimeError (msg : string)
  | AttributeError (attr : string)
  | IndexError
  | UnboundLocalError (var : string)
  | ValueError (msg : string)
  | ServiceError (msg : string)
  | InvalidReference.

Inductive outcome (A : Type) : Type :=
  | Return (a : A)
  | Raise (e : exn).
Arguments Return {A} a.
Arguments Raise {A} e.

(** The objects [attribute_puller] walks over.  [VObj] is an instance with
    its attribute table; [obj_truthy] is what [bool(obj)] answers (an
    instance is truthy unless its class defines [__bool__] or [__len__]).
    An entry [VProperty getter] of an attribute table is a property:
    fetching the attribute runs its getter, which returns a value or
    raises.  The model reads attributes off instances; the built-in
    attributes of scalars are outside it, and so are objects whose truth
    test or string form raises. *)
#[warnings="-register-all"]
Inductive value : Type :=
  | VNone
  | VBool (b : bool)
  | VInt (z : Z)
  | VStr (s : string)
  | VObj (obj_truthy : bool) (attrs : gmap string value)
  | VProperty (getter : outcome value).

(** [bool(v)], as used by [if v] and [not v]. *)
Definition truthy (v : value) : bool :=
  match v with
  | VNone => false
  | VBool b => b
  | VInt z => negb (Z.eqb z 0)
  | VStr s => negb (String.eqb s EmptyString)
  | VObj t _ => t
  | VProperty _ => true
  end.

(** The entry of the instance's attribute table. *)
Definition lookup_attr (o : value) (attr : string) : option value :=
  match o with
  | VObj _ attrs => attrs !! attr
  | _ => None
  end.

(** Two-argument [getattr(o, attr)]: an absent attribute raises, a
    property answers what its getter does. *)
Definition getattr (o : value) (attr : string) : outcome value :=
  match lookup_attr o attr with
  | Some (VProperty getter) => getter
  | Some v => Return v
  | None => Raise (AttributeError attr)
  end.

(** Three-argument [getattr(o, attr, default)]: [AttributeError] is caught
    and answered by the default, any other exception passes through. *)
Definition getattr_default (o : value) (attr : string) (default : value)
  : outcome value :=
  match getattr o attr with
  | Raise (AttributeError _) => Return default
  | r => r
  end.

(** ** Objects of the OpenAI SDK *)

(** A file citation or file path annotation of the SDK: the annotated
    text and the span the server reports for it. *)
Record Annotation : Type := mkAnnotation {
  ann_text : string;
  start_index : nat;
  end_index : nat
}.

Record Text : Type := mkText {
  text_value : string;
  annotations : list Annotation
}.

(** A content block of a message; only a text block has [.text]. *)
Inductive ContentBlock : Type :=
  | TextContentBlock (text : Text)
  | ImageContentBlock (file_id : string).

Record Message : Type := mkMessage { content : list ContentBlock }.

Record Tool : Type := mkTool { tool_type : string }.

Record Assistant : Type := mkAssistant {
  asst_id : string;
  asst_name : option string;
  asst_model : string;
  asst_tools : list Tool;
  asst_instructions : option string
}.

Record FileObject : Type := mkFileObject { file_object_id : string }.

Record Thread : Type := mkThread { thread_id : string }.

(** The attachment and the seed message sent by [create_thread]. *)
Record Attachment : Type := mkAttachment {
  att_file_id : string;
  att_tools : list Tool
}.

Record ThreadMessage : Type := mkThreadMessage {
  msg_role : string;
  msg_content : option string;
  msg_attachments : list Attachment
}.

(** What a streamed run delivers to its event handler, in order, and the
    run object the SDK leaves on the handler in its private
    [__current_run] attribute. *)
Inductive StreamEvent : Type :=
  | TextCreated (text : Text)
  | ToolCallCreated (type : string)
  | MessageDone (message : Message).

(** The token counts of a run, and the run, as the SDK's models store
    them. *)
Record Usage : Type := mkUsage {
  usage_completion_tokens : Z;
  usage_prompt_tokens : Z;
  usage_total_tokens : Z
}.

Record Run : Type := mkRun { run_usage : option Usage }.

Record StreamRun : Type := mkStreamRun {
  events : list StreamEvent;
  current_run : option Run
}.

(** ** Logging *)

Inductive level : Type := INFO | ERROR.

(** An argument of a log call: a string, or [str(v)] of a value. *)
Inductive log_arg : Type :=
  | ArgStr (s : string)
  | ArgStrOf (v : value)
  | ArgStrOfText (t : Text).

Record LogRecord : Type := mkLog {
  log_level : level;
  log_format : string;
  log_args : list log_arg
}.

(** ** [attribute_puller] *)

Definition attribute_not_found (attr : string) (_obj : value) : LogRecord :=
  mkLog ERROR "Attribute not found: %s on object %s"
        [ArgStr attr; ArgStrOf _obj].

(** The [for attr in _path] loop, from the current [ret]; the result is
    the value of [ret] when the loop ends (exhausted or by [break]) and the
    records logged on the way. *)
Fixpoint attribute_puller_loop (_path : list string) (_obj ret : value)
  : outcome value * list LogRecord :=
  match _path with
  | [] => (Return ret, [])
  | attr :: rest =>
      match (if truthy ret
             then getattr_default ret attr VNone
             else getattr_default _obj attr VNone) with
      | Raise e => (Raise e, [])
      | Return ret' =>
          if negb (truthy ret')
          then (Return ret', [attribute_not_found attr _obj])
          else attribute_puller_loop rest _obj ret'
      end
  end.

Definition attribute_puller (_path : list string) (_obj : value)
  : outcome value * list LogRecord :=
  match _path with
  | [] => (Return VNone, [])
  | _ =>
      if negb (truthy _obj) then (Return VNone, [])
      else attribute_puller_loop _path _obj VNone
  end.

(** ** Strings: [str.replace] and the index marker *)

(** [s.startswith(old)]. *)
Fixpoint startswith (s old : string) {struct old} : bool :=
  match old with
  | EmptyString => true
  | String a old' =>
      match s with
      | EmptyString => false
      | String b s' => if Ascii.eqb a b then startswith s' old' else false
      end
  end.

(** The left-to-right scan of [str.replace] for a non-empty [old]: [skip]
    counts the characters of the occurrence just replaced that are still
    to be passed over, so occurrences never overlap. *)
Fixpoint replace_scan (old new s : string) (skip : nat) : string :=
  match s with
  | EmptyString => EmptyString
  | String c s' =>
      match skip with
      | S k => replace_scan old new s' k
      | O =>
          if startswith s old
          then new +:+ replace_scan old new s' (String.length old - 1)
          else String c (replace_scan old new s' 0)
      end
  end.

(** [str.replace] with an empty [old] puts [new] before every character
    and at the end. *)
Fixpoint interleave (new s : string) : string :=
  match s with
  | EmptyString => new
  | String c s' => new +:+ String c (interleave new s')
  end.

(** [s.replace(old, new)]. *)
Definition str_replace (s old new : string) : string :=
  match old with
  | EmptyString => interleave new s
  | _ => replace_scan old new s 0
  end.

(** The f-string [f"[{index}]"]. *)
Definition index_marker (index : nat) : string :=
  "[" +:+ NilZero.string_of_uint (Nat.to_uint index) +:+ "]".

(** ** The streamed message and [EventHandler] *)

Record EventHandler : Type := mkEventHandler {
  parse_response : option string
}.

(** [EventHandler.__init__]. *)
Definition EventHandler_init (parse_response : option string) : EventHandler :=
  mkEventHandler parse_response.

(** The loop of [on_message_done]:
    [for index, annotation in enumerate(annotations)], counting from
    [index], on the current [message_content.value]. *)
Fixpoint replace_annotations (index : nat) (anns : list Annotation)
    (value : string) : string :=
  match anns with
  | [] => value
  | annotation :: rest =>
      replace_annotations (S index) rest
        (str_replace value (ann_text annotation) (index_marker index))
  end.

(** [on_message_done]: the handler after the call, and the message, whose
    first text payload has been assigned the rewritten value. *)
Definition on_message_done (self : EventHandler) (message : Message)
  : outcome (EventHandler * Message) :=
  match content message with
  | [] => Raise IndexError
  | ImageContentBlock _ :: _ => Raise (AttributeError "text")
  | TextContentBlock message_content :: blocks =>
      let value :=
        replace_annotations 0 (annotations message_content)
                            (text_value message_content) in
      Return (mkEventHandler (Some value),
              mkMessage (TextContentBlock
                           (mkText value (annotations message_content))
                         :: blocks))
  end.

(** ** The remote service, the store of managers, and the monad *)

(** The module-level [client = OpenAI()]: each remote operation of the SDK
    that the module uses, acting on a service state [R].  [files_create]
    stands for [open(_path, "rb")] followed by the upload; a failure of
    either is the exception raised. *)
Class OpenAI (R : Type) : Type := {
  beta_assistants_list : R -> outcome (list Assistant) * R;
  beta_assistants_retrieve : string -> R -> outcome Assistant * R;
  beta_assistants_create :
    option string -> string -> list Tool -> option string ->
    R -> outcome Assistant * R;
  files_create : option string -> R -> outcome FileObject * R;
  beta_threads_create : list ThreadMessage -> R -> outcome Thread * R;
  beta_threads_runs_stream : string -> string -> R -> outcome StreamRun * R
}.

(** The remote calls issued so far are recorded, in order. *)
Inductive RemoteCall : Type :=
  | CallAssistantsList
  | CallAssistantsRetrieve (assistant_id : string)
  | CallAssistantsCreate (name : option string)
  | CallFilesCreate (path : option string)
  | CallThreadsCreate (messages : list ThreadMessage)
  | CallRunsStream (thread_id assistant_id : string).

(** The fields of a [GPT] instance. *)
Record GPT : Type := mkGPT {
  assistant : option Assistant;
  message_file : option FileObject;
  thread : option Thread
}.

(** A reference to a [GPT] instance: its index in the store. *)
Definition ref : Type := nat.

Record world (R : Type) : Type := mkWorld {
  heap : list GPT;
  service : R;
  calls : list RemoteCall;
  log : list LogRecord
}.
Arguments mkWorld {R} heap service calls log.
Arguments heap {R} w.
Arguments service {R} w.
Arguments calls {R} w.
Arguments log {R} w.

Definition M (R A : Type) : Type := world R -> outcome A * world R.

Definition ret {R A} (a : A) : M R A := fun w => (Return a, w).

Definition raise {R A} (e : exn) : M R A := fun w => (Raise e, w).

Definition bind {R A B} (m : M R A) (k : A -> M R B) : M R B :=
  fun w =>
    match m w with
    | (Return a, w') => k a w'
    | (Raise e, w') => (Raise e, w')
    end.

Notation "'let*' x ':=' m 'in' k" := (bind m (fun x => k))
  (at level 10, x pattern, m at level 100, k at level 200).
Notation "m ';;' k" := (bind m (fun _ => k))
  (at level 100, k at level 200, right associativity).

Definition emit {R} (records : list LogRecord) : M R unit :=
  fun w => (Return tt, mkWorld (heap w) (service w) (calls w) (log w ++ records)).

Definition logger_info {R} (format : string) (args : list log_arg) : M R unit :=
  emit [mkLog INFO format args].

(** A call through [client]: recorded, then answered by the service. *)
Definition remote {R A} (call : RemoteCall) (op : R -> outcome A * R) : M R A :=
  fun w =>
    let '(r, s) := op (service w) in
    (r, mkWorld (heap w) s (calls w ++ [call]) (log w)).

(** Reading and assigning the fields of the instance behind a reference.
    A reference handed out by [GPT_init] is always in the store;
    [InvalidReference] only answers an index that is not. *)
Definition read {R} (self : ref) : M R GPT :=
  fun w =>
    match heap w !! self with
    | Some g => (Return g, w)
    | None => (Raise InvalidReference, w)
    end.

Definition assign {R} (self : ref) (f : GPT -> GPT) : M R unit :=
  fun w =>
    match heap w !! self with
    | Some g =>
        (Return tt, mkWorld (<[self := f g]> (heap w)) (service w) (calls w) (log w))
    | None => (Raise InvalidReference, w)
    end.

Definition set_assistant (a : Assistant) (g : GPT) : GPT :=
  mkGPT (Some a) (message_file g) (thread g).

Definition set_message_file (f : FileObject) (g : GPT) : GPT :=
  mkGPT (assistant g) (Some f) (thread g).

Definition set_thread (t : Thread) (g : GPT) : GPT :=
  mkGPT (assistant g) (message_file g) (Some t).

(** [GPT()]: a new instance with the three fields [None]. *)
Definition GPT_init {R} : M R ref :=
  fun w =>
    (Return (length (heap w)),
     mkWorld (heap w ++ [mkGPT None None None]) (service w) (calls w) (log w)).

(** [bool(s)] for an optional string: [None] and the empty string are falsy. *)
Definition str_truthy (s : option string) : bool :=
  match s with
  | None => false
  | Some s => negb (String.eqb s EmptyString)
  end.

(** The keyword arguments the methods look up with [kwargs.get]. *)
Record kwargs : Type := mkKwargs {
  kw_tools : option (list Tool);
  kw_model : option string;
  kw_role : option string
}.

Definition no_kwargs : kwargs := mkKwargs None None None.

(** ** The [GPT] manager *)

Section Manager.

Context {R : Type} {client : OpenAI R}.

(** The [for asst in assistants] loop of [find_assistant]. *)
Fixpoint find_assistant_loop (id_or_name : option string)
    (assistants : list Assistant) : M R (option Assistant) :=
  match assistants with
  | [] => ret None
  | asst :: rest =>
      if bool_decide (Some (asst_id asst) = id_or_name)
      then
        let* a := remote (CallAssistantsRetrieve (asst_id asst))
                         (beta_assistants_retrieve (asst_id asst)) in
        ret (Some a)
      else if bool_decide (asst_name asst = id_or_name)
      then
        let* a := remote (CallAssistantsRetrieve (asst_id asst))
                         (beta_assistants_retrieve (asst_id asst)) in
        ret (Some a)
      else find_assistant_loop id_or_name rest
  end.

Definition find_assistant (self : ref) (id_or_name : option string)
  : M R (option Assistant) :=
  if negb (str_truthy id_or_name) then ret None
  else
    let* assistants := remote CallAssistantsList beta_assistants_list in
    match assistants with
    | [] => ret None
    | _ => find_assistant_loop id_or_name assistants
    end.

Definition create_assistant (self : ref) (name instructions : option string)
    (kw : kwargs) : M R Assistant :=
  let* g := read self in
  match str_truthy name, assistant g with
  | false, Some cached =>
      logger_info "Using assistant found in object" [] ;;
      ret cached
  | false, None =>
      raise (RuntimeError "Missing name for assistant creation in GPT")
  | true, _ =>
      let* found := find_assistant self name in
      match found with
      | Some asst =>
          logger_info "Using existing assistant found on service" [] ;;
          assign self (set_assistant asst) ;;
          ret asst
      | None =>
          let tools := default [mkTool "file_search"] (kw_tools kw) in
          let _model := default "gpt-3.5-turbo" (kw_model kw) in
          let* created :=
            remote (CallAssistantsCreate name)
                   (beta_assistants_create name _model tools instructions) in
          assign self (set_assistant created) ;;
          logger_info "Created new object, added to object" [] ;;
          ret created
      end
  end.

Definition attach_file (self : ref) (_path : option string) : M R unit :=
  let* f := remote (CallFilesCreate _path) (files_create _path) in
  assign self (set_message_file f).

Definition create_thread (self : ref) (content : option string) (kw : kwargs)
  : M R unit :=
  let role := default "user" (kw_role kw) in
  if negb (str_truthy content)
  then raise (RuntimeError "No content provided for create_thread [hqt673]")
  else
    let* g := read self in
    match message_file g with
    | None => raise (AttributeError "id")
    | Some f =>
        let messages :=
          [mkThreadMessage role content
             [mkAttachment (file_object_id f) [mkTool "file_search"]]] in
        let* t := remote (CallThreadsCreate messages)
                         (beta_threads_create messages) in
        assign self (set_thread t)
    end.

(** The SDK handing one event to the handler. *)
Definition dispatch (h : EventHandler) (ev : StreamEvent) : M R EventHandler :=
  match ev with
  | TextCreated text =>
      logger_info "\nassistant > on_text_created > %s" [ArgStrOfText text] ;;
      ret h
  | ToolCallCreated type =>
      logger_info "\nassistant > on_tool_call_created > %s \n" [ArgStr type] ;;
      ret h
  | MessageDone message =>
      match on_message_done h message with
      | Return (h', _) => ret h'
      | Raise e => raise e
      end
  end.

(** [stream.until_done()]. *)
Fixpoint until_done (evs : list StreamEvent) (h : EventHandler)
  : M R EventHandler :=
  match evs with
  | [] => ret h
  | ev :: rest => let* h' := dispatch h ev in until_done rest h'
  end.

(** The SDK's models as the objects [attribute_puller] walks over: their
    fields are stored values. *)
Definition Usage_as_value (u : Usage) : value :=
  VObj true
    (<["completion_tokens" := VInt (usage_completion_tokens u)]>
       (<["prompt_tokens" := VInt (usage_prompt_tokens u)]>
          (<["total_tokens" := VInt (usage_total_tokens u)]> ∅))).

Definition Run_as_value (r : Run) : value :=
  VObj true
    (<["usage" := match run_usage r with
                  | Some u => Usage_as_value u
                  | None => VNone
                  end]> ∅).

(** The handler object as [attribute_puller] sees it. *)
Definition stream_object (h : EventHandler) (run : option Run) : value :=
  VObj true
    (<["_AssistantEventHandler__current_run" :=
         match run with Some r => Run_as_value r | None => VNone end]>
       (<["parse_response" :=
            match parse_response h with Some s => VStr s | None => VNone end]> ∅)).

(** One of the three token-count log lines of [get_response]. *)
Definition log_tokens (format : string) (_path : list string) (stream : value)
  : M R unit :=
  match attribute_puller _path stream with
  | (Return v, records) => emit records ;; logger_info format [ArgStrOf v]
  | (Raise e, records) => emit records ;; raise e
  end.

Definition get_response (self : ref) : M R (option string) :=
  let* g := read self in
  match thread g with
  | None => raise (RuntimeError "get_response did not receive thread")
  | Some th =>
      match assistant g with
      | None => raise (RuntimeError "get_response did not receive assistant")
      | Some a =>
          let parse_response0 : option string := None in
          let* run :=
            remote (CallRunsStream (thread_id th) (asst_id a))
                   (beta_threads_runs_stream (thread_id th) (asst_id a)) in
          let* h := until_done (events run) (EventHandler_init parse_response0) in
          let stream := stream_object h (current_run run) in
          let completion_tokens :=
            ["_AssistantEventHandler__current_run"; "usage"; "completion_tokens"] in
          let prompt_tokens :=
            ["_AssistantEventHandler__current_run"; "usage"; "prompt_tokens"] in
          let total_tokens :=
            ["_AssistantEventHandler__current_run"; "usage"; "total_tokens"] in
          log_tokens "completion_tokens: %s" completion_tokens stream ;;
          log_tokens "prompt_tokens: %s" prompt_tokens stream ;;
          log_tokens "total_tokens: %s" total_tokens stream ;;
          ret (parse_response h)
      end
  end.

(** ** [send_pdf_to_openai] *)

(** The function has two local variables for the manager: the parameter
    [gpt_obj] and [gpt], which is bound only by the assignment
    [gpt_obj = gpt = GPT()].  A local read before it is bound raises
    [UnboundLocalError]. *)
Definition send_pdf_to_openai
    (assistant_name assistant_instructions thread_content file_path : option string)
    (gpt_obj : option ref) : M R (option string) :=
  let* locals :=
    match gpt_obj with
    | None => let* fresh := GPT_init in ret (fresh, Some fresh)
    | Some supplied => ret (supplied, None)
    end in
  let gpt_obj : ref := fst locals in
  let gpt : option ref := snd locals in
  create_assistant gpt_obj assistant_name assistant_instructions no_kwargs ;;
  attach_file gpt_obj file_path ;;
  create_thread gpt_obj thread_content no_kwargs ;;
  let* gpt :=
    match gpt with
    | Some r => ret r
    | None => raise (UnboundLocalError "gpt")
    end in
  let* res := get_response gpt in
  ret res.

End Manager.

(** ** Specification-side definitions *)

(** The walk of the attribute chain as the specification words it: each
    name is fetched off the result of the previous step, off the root for
    the first; the walk stops at the first name that is missing
    ([found = None]) or holds a falsy value ([found = Some v]), and is
    cut short when fetching a name raises anything but
    [AttributeError]. *)
Inductive walk_result : Type :=
  | Leaf (v : value)
  | Stopped (attr : string) (found : option value)
  | Raised (attr : string) (e : exn).

Fixpoint walk (cur : value) (_path : list string) : walk_result :=
  match _path with
  | [] => Leaf cur
  | attr :: rest =>
      match getattr cur attr with
      | Raise (AttributeError _) => Stopped attr None
      | Raise e => Raised attr e
      | Return v => if truthy v then walk v rest else Stopped attr (Some v)
      end
  end.

(** The ways a resolution fails, with the value returned and the records
    logged in each: the path is empty; the root is falsy; after a part
    [init] of the path has been walked to [holder], the next name is
    missing on the instance [holder], or holds [None]; or the last name of
    the path holds a falsy value. *)
Inductive resolver_failure (_path : list string) (_obj : value)
  : value -> list LogRecord -> Prop :=
  | failure_empty_path :
      _path = [] -> resolver_failure _path _obj VNone []
  | failure_falsy_root :
      truthy _obj = false -> resolver_failure _path _obj VNone []
  | failure_missing init attr rest holder_truthy attrs :
      truthy _obj = true -> _path = init ++ attr :: rest ->
      walk _obj init = Leaf (VObj holder_truthy attrs) ->
      attrs !! attr = None ->
      resolver_failure _path _obj VNone [attribute_not_found attr _obj]
  | failure_none init attr rest holder :
      truthy _obj = true -> _path = init ++ attr :: rest ->
      walk _obj init = Leaf holder ->
      getattr holder attr = Return VNone ->
      resolver_failure _path _obj VNone [attribute_not_found attr _obj]
  | failure_falsy_leaf init attr holder v :
      truthy _obj = true -> _path = init ++ [attr] ->
      walk _obj init = Leaf holder ->
      getattr holder attr = Return v -> truthy v = false ->
      resolver_failure _path _obj v [attribute_not_found attr _obj].

(** [old] occurs in [s] at offset [n]. *)
Definition occurs_at (old s : string) (n : nat) : Prop :=
  exists pre post, s = pre +:+ old +:+ post /\ String.length pre = n.

(** [r] is [s] with every occurrence of [old], taken left to right without
    overlap, replaced by [new], and every other character kept. *)
Inductive replaced_all (old new : string) : string -> string -> Prop :=
  | replaced_none s :
      old <> EmptyString -> (forall n, ~ occurs_at old s n) ->
      replaced_all old new s s
  | replaced_first pre post r :
      old <> EmptyString ->
      (forall n, occurs_at old (pre +:+ old +:+ post) n -> String.length pre <= n) ->
      replaced_all old new post r ->
      replaced_all old new (pre +:+ old +:+ post) (pre +:+ new +:+ r)
  | replaced_everywhere s :
      old = EmptyString -> replaced_all old new s (interleave new s).

(** The annotations applied in list order, the one at list index [i] with
    the marker of [i], each to the text left by the ones before it. *)
Inductive rewritten : nat -> list Annotation -> string -> string -> Prop :=
  | rewritten_nil i s : rewritten i [] s s
  | rewritten_cons i a rest s s' r :
      replaced_all (ann_text a) (index_marker i) s s' ->
      rewritten (S i) rest s' r ->
      rewritten i (a :: rest) s r.

(** Replacing only the occurrence at the span an annotation reports, as
    the specification describes the rewrite of a single annotation. *)
Definition replace_matched_span (value : string) (a : Annotation) (index : nat)
  : string :=
  String.substring 0 (start_index a) value
  +:+ index_marker index
  +:+ String.substring (end_index a) (String.length value - end_index a) value.

(** A computation that never touches the store of managers. *)
Definition heap_stable {R A} (m : M R A) : Prop :=
  forall w r w', m w = (r, w') -> heap w' = heap w.

(** A computation that leaves the store as it was whenever it raises. *)
Definition raise_stable {R A} (m : M R A) : Prop :=
  forall w e w', m w = (Raise e, w') -> heap w' = heap w.

(** A computation that raises nothing. *)
Definition no_raise {R A} (m : M R A) : Prop :=
  forall w e w', m w <> (Raise e, w').

(** ** A scripted service *)

(** The service of the end-to-end scenario: one existing assistant named
    "Reviewer", and a run whose final message cites one source. *)
Definition reviewer : Assistant :=
  mkAssistant "asst_1" (Some "Reviewer") "gpt-3.5-turbo"
              [mkTool "file_search"] None.

Definition cited_message : Message :=
  mkMessage [TextContentBlock
               (mkText "See [cite1] for details."
                       [mkAnnotation "[cite1]" 4 11])].

Definition usage_run : value :=
  VObj true
    (<["usage" :=
         VObj true (<["completion_tokens" := VInt 0]>
                      (<["prompt_tokens" := VInt 12]>
                         (<["total_tokens" := VInt 12]> ∅)))]> ∅).

(** The run object the scripted stream leaves on the handler. *)
Definition scripted_run : option Run := Some (mkRun (Some (mkUsage 0 12 12))).

Definition scripted : OpenAI unit := {|
  beta_assistants_list := fun s => (Return [reviewer], s);
  beta_assistants_retrieve := fun _ s => (Return reviewer, s);
  beta_assistants_create := fun name model tools instructions s =>
    (Return (mkAssistant "asst_2" name model tools instructions), s);
  files_create := fun _ s => (Return (mkFileObject "file_1"), s);
  beta_threads_create := fun _ s => (Return (mkThread "thread_1"), s);
  beta_threads_runs_stream := fun _ _ s =>
    (Return (mkStreamRun [MessageDone cited_message] scripted_run), s)
|}.

Definition empty_world : world unit := mkWorld [] tt [] [].

(** A world holding one manager with the given fields. *)
Definition world_with (g : GPT) : world unit := mkWorld [g] tt [] [].

(** ** Further specification-side definitions *)

(** An entry of the listing matches an identifier when its id or its name
    equals it. *)
Definition matches_assistant (id_or_name : option string) (asst : Assistant)
  : bool :=
  bool_decide (Some (asst_id asst) = id_or_name)
  || bool_decide (asst_name asst = id_or_name).

Definition is_message_done (ev : StreamEvent) : bool :=
  match ev with
  | MessageDone _ => true
  | _ => false
  end.

(** [s.find(old)]: the offset of the first occurrence of [old] in [s],
    [None] where Python answers [-1]. *)
Fixpoint str_find (s old : string) : option nat :=
  if startswith s old then Some 0
  else match s with
       | EmptyString => None
       | String _ s' => S <$> str_find s' old
       end.

(** An event the handler takes without raising: any event but the
    finalization of a message whose first content block is not a text. *)
Definition finalizable (ev : StreamEvent) : bool :=
  match ev with
  | MessageDone message =>
      match content message with
      | TextContentBlock _ :: _ => true
      | _ => false
      end
  | _ => true
  end.

(** A computation that keeps the number of managers in the store and
    changes no instance other than [self]. *)
Definition touches_only {R A} (self : ref) (m : M R A) : Prop :=
  forall w r w', m w = (r, w') ->
    length (heap w') = length (heap w)
    /\ forall other, other <> self -> heap w' !! other = heap w !! other.

(** A service like [scripted] whose run announces a text and a tool call
    but finalizes no message. *)
Definition silent : OpenAI unit := {|
  beta_assistants_list := fun s => (Return [reviewer], s);
  beta_assistants_retrieve := fun _ s => (Return reviewer, s);
  beta_assistants_create := fun name model tools instructions s =>
    (Return (mkAssistant "asst_2" name model tools instructions), s);
  files_create := fun _ s => (Return (mkFileObject "file_1"), s);
  beta_threads_create := fun _ s => (Return (mkThread "thread_1"), s);
  beta_threads_runs_stream := fun _ _ s =>
    (Return (mkStreamRun [TextCreated (mkText "See" []);
                          ToolCallCreated "file_search"] scripted_run), s)
|}.

(** A service like [scripted] whose run finalizes two messages, with
    other events before, between and after them. *)
Definition draft_message : Message :=
  mkMessage [TextContentBlock (mkText "Draft [d1]." [mkAnnotation "[d1]" 6 10])].

Definition two_messages : OpenAI unit := {|
  beta_assistants_list := fun s => (Return [reviewer], s);
  beta_assistants_retrieve := fun _ s => (Return reviewer, s);
  beta_assistants_create := fun name model tools instructions s =>
    (Return (mkAssistant "asst_2" name model tools instructions), s);
  files_create := fun _ s => (Return (mkFileObject "file_1"), s);
  beta_threads_create := fun _ s => (Return (mkThread "thread_1"), s);
  beta_threads_runs_stream := fun _ _ s =>
    (Return (mkStreamRun [ToolCallCreated "file_search";
                          MessageDone draft_message;
                          TextCreated (mkText "See" []);
                          MessageDone cited_message;
                          ToolCallCreated "file_search"] scripted_run), s)
|}.

(** * Properties *)

(** ** The attribute path resolver *)

(** What the defaulting fetch answers, by what the plain one does. *)
Lemma getattr_default_cases (o : value) (attr : string) (d : value) :
  getattr_default o attr d =
    match getattr o attr with
    | Return v => Return v
    | Raise (AttributeError _) => Return d
    | Raise e => Raise e
    end.
Proof.
  unfold getattr_default. destruct (getattr o attr) as [v|[]]; reflexivity.
Qed.

(** One round of the loop reads off [_obj] while [ret] is still falsy and
    off [ret] afterwards. *)
Lemma attribute_puller_loop_step (attr : string) (rest : list string)
    (_obj ret : value) :
  attribute_puller_loop (attr :: rest) _obj ret =
    match getattr_default (if truthy ret then ret else _obj) attr VNone with
    | Raise e => (Raise e, [])
    | Return ret' =>
        if truthy ret' then attribute_puller_loop rest _obj ret'
        else (Return ret', [attribute_not_found attr _obj])
    end.
Proof.
  cbn [attribute_puller_loop].
  destruct (truthy ret); destruct (getattr_default _ attr VNone) as [r|e];
    try reflexivity; destruct (truthy r); reflexivity.
Qed.

(** From a truthy [ret], the loop follows the walk from [ret]. *)
Lemma attribute_puller_loop_walk (_path : list string) (_obj : value) :
  forall ret, truthy ret = true ->
    attribute_puller_loop _path _obj ret =
      match walk ret _path with
      | Leaf v => (Return v, [])
      | Stopped attr found =>
          (Return (default VNone found), [attribute_not_found attr _obj])
      | Raised attr e => (Raise e, [])
      end.
Proof.
  induction _path as [|attr rest IH]; intros ret Hret.
  - reflexivity.
  - rewrite attribute_puller_loop_step, Hret, getattr_default_cases.
    cbn [walk].
    destruct (getattr ret attr) as [v|e]; [|destruct e; reflexivity].
    destruct (truthy v) eqn:Hv; [apply IH; exact Hv | reflexivity].
Qed.

(** On a truthy root and a non-empty path the resolver follows the walk
    from the root. *)
Lemma attribute_puller_walk (_path : list string) (_obj : value) :
  _path <> [] -> truthy _obj = true ->
  attribute_puller _path _obj =
    match walk _obj _path with
    | Leaf v => (Return v, [])
    | Stopped attr found =>
        (Return (default VNone found), [attribute_not_found attr _obj])
    | Raised attr e => (Raise e, [])
    end.
Proof.
  intros Hpath Hobj. destruct _path as [|attr rest]; [congruence|].
  unfold attribute_puller. rewrite Hobj. cbn [negb].
  rewrite attribute_puller_loop_step, getattr_default_cases.
  cbn [truthy walk].
  destruct (getattr _obj attr) as [v|e]; [|destruct e; reflexivity].
  destruct (truthy v) eqn:Hv; [|reflexivity].
  apply attribute_puller_loop_walk; exact Hv.
Qed.

Lemma walk_stopped_falsy (_path : list string) :
  forall cur attr v, walk cur _path = Stopped attr (Some v) -> truthy v = false.
Proof.
  induction _path as [|a rest IH]; intros cur attr v; cbn [walk].
  - discriminate.
  - destruct (getattr cur a) as [x|e]; [|destruct e; discriminate].
    destruct (truthy x) eqn:Hx; [apply IH|].
    intros [= <- <-]. exact Hx.
Qed.


Lemma walk_app (p1 p2 : list string) :
  forall cur,
    walk cur (p1 ++ p2)
    = match walk cur p1 with
      | Leaf v => walk v p2
      | Stopped attr found => Stopped attr found
      | Raised attr e => Raised attr e
      end.
Proof.
  induction p1 as [|a rest IH]; intros cur; [reflexivity|].
  cbn [app walk]. destruct (getattr cur a) as [x|e]; [|destruct e; reflexivity].
  destruct (truthy x); [apply IH | reflexivity].
Qed.

Lemma walk_leaf_truthy (_path : list string) :
  forall cur v, _path <> [] -> walk cur _path = Leaf v -> truthy v = true.
Proof.
  induction _path as [|a rest IH]; intros cur v Hne; [congruence|].
  cbn [walk]. destruct (getattr cur a) as [x|e]; [|destruct e; discriminate].
  destruct (truthy x) eqn:Hx; [|discriminate].
  destruct rest as [|b rest']; [cbn; congruence|].
  apply IH. discriminate.
Qed.

(** After a part of the path has been walked to [holder], the resolver
    goes on as the walk from [holder] does. *)
Lemma attribute_puller_after (init : list string) (attr : string)
    (rest : list string) (_obj holder : value) :
  truthy _obj = true -> walk _obj init = Leaf holder ->
  attribute_puller (init ++ attr :: rest) _obj =
    match walk holder (attr :: rest) with
    | Leaf v => (Return v, [])
    | Stopped a found =>
        (Return (default VNone found), [attribute_not_found a _obj])
    | Raised a e => (Raise e, [])
    end.
Proof.
  intros Hobj Hinit.
  rewrite attribute_puller_walk; [|destruct init; discriminate | assumption].
  rewrite walk_app, Hinit. reflexivity.
Qed.

(** C3, as stated, fails: a step that yields a falsy value other than
    [None] makes the resolver return that value.  Here the completion
    token counter of a run is [0], and [0] is returned, not [None]. *)
Lemma attribute_puller_falsy_leaf_not_none :
  let usage := VObj true (<["completion_tokens" := VInt 0]> ∅) in
  let run := VObj true (<["usage" := usage]> ∅) in
  walk run ["usage"; "completion_tokens"]
    = Stopped "completion_tokens" (Some (VInt 0))
  /\ fst (attribute_puller ["usage"; "completion_tokens"] run) = Return (VInt 0)
  /\ fst (attribute_puller ["usage"; "completion_tokens"] run) <> Return VNone.
Proof. vm_compute. repeat split; congruence. Qed.

(** C3 (amended): when the path is empty, or the root is falsy, or a
    step of the walk finds the attribute missing on the instance it is
    fetched from or yields [None], the resolver returns [None] for the
    whole path; when the last step yields a falsy value other than [None],
    the resolver returns that value.  A failed step logs one error naming
    the attribute and the root. *)
Theorem attribute_puller_failure (_path : list string) (_obj v : value)
    (records : list LogRecord) :
  resolver_failure _path _obj v records ->
  attribute_puller _path _obj = (Return v, records) /\ truthy v = false.
Proof.
  intros [Hp | Ho
         | init attr rest t attrs Ho Hp Hw Hnone
         | init attr rest holder Ho Hp Hw Hget
         | init attr holder x Ho Hp Hw Hget Hx].
  - subst _path. split; reflexivity.
  - split; [|reflexivity].
    unfold attribute_puller. rewrite Ho. destruct _path; reflexivity.
  - subst _path. rewrite (attribute_puller_after init attr rest _obj _ Ho Hw).
    cbn [walk]. unfold getattr. cbn [lookup_attr]. rewrite Hnone.
    split; reflexivity.
  - subst _path. rewrite (attribute_puller_after init attr rest _obj _ Ho Hw).
    cbn [walk]. rewrite Hget. split; reflexivity.
  - subst _path. rewrite (attribute_puller_after init attr [] _obj _ Ho Hw).
    cbn [walk]. rewrite Hget, Hx. split; reflexivity.
Qed.

Lemma attribute_puller_failure_witness :
  attribute_puller ["usage"; "completion_tokens"]
    (VObj true (<["usage" := VObj true (<["completion_tokens" := VBool false]> ∅)]> ∅))
  = (Return (VBool false),
     [attribute_not_found "completion_tokens"
        (VObj true (<["usage" := VObj true (<["completion_tokens" := VBool false]> ∅)]> ∅))])
  /\ truthy (VBool false) = false.
Proof.
  apply (attribute_puller_failure ["usage"; "completion_tokens"]).
  apply (failure_falsy_leaf _ _ ["usage"] "completion_tokens"
           (VObj true (<["completion_tokens" := VBool false]> ∅)));
    [reflexivity | reflexivity | vm_compute; reflexivity
     | vm_compute; reflexivity | reflexivity].
Defined.

(** C7, as stated, fails: when the root object itself is falsy the
    resolver returns [None] although every step of the chain exists and is
    truthy. *)
Lemma attribute_puller_falsy_root_valid_chain :
  let root := VObj false (<["name" := VStr "report"]> ∅) in
  walk root ["name"] = Leaf (VStr "report")
  /\ fst (attribute_puller ["name"] root) = Return VNone
  /\ fst (attribute_puller ["name"] root) <> Return (VStr "report").
Proof. vm_compute. repeat split; congruence. Qed.

(** C7 (amended): for every truthy root object and every non-empty
    attribute chain in which each step's attribute exists and yields a
    truthy value, the resolver returns the leaf value reached by walking
    the chain left to right, and logs nothing. *)
Theorem attribute_puller_leaf (_path : list string) (_obj leaf : value) :
  _path <> [] -> truthy _obj = true -> walk _obj _path = Leaf leaf ->
  attribute_puller _path _obj = (Return leaf, []).
Proof.
  intros Hp Ho Hw. rewrite attribute_puller_walk, Hw by assumption.
  reflexivity.
Qed.

Lemma attribute_puller_leaf_witness :
  attribute_puller ["usage"; "total_tokens"] usage_run = (Return (VInt 12), []).
Proof.
  apply attribute_puller_leaf;
    [discriminate | reflexivity | vm_compute; reflexivity].
Defined.



(** The unguarded [getattr] does raise on the absent attribute that the
    resolver survives. *)
Example getattr_absent_raises :
  getattr (VObj true ∅) "usage" = Raise (AttributeError "usage")
  /\ attribute_puller ["usage"] (VObj true ∅)
     = (Return VNone, [attribute_not_found "usage" (VObj true ∅)]).
Proof. vm_compute. split; reflexivity. Qed.

(** ** [str.replace] *)

Lemma append_nil_l (t : string) : EmptyString +:+ t = t.
Proof. reflexivity. Qed.

Lemma append_cons (c : Ascii.ascii) (s t : string) :
  String c s +:+ t = String c (s +:+ t).
Proof. reflexivity. Qed.

Lemma length_append (s t : string) :
  String.length (s +:+ t) = String.length s + String.length t.
Proof.
  induction s as [|c s IH]; [reflexivity|].
  rewrite append_cons. cbn [String.length]. now rewrite IH.
Qed.

Lemma startswith_spec (old : string) :
  forall s, startswith s old = true <-> exists post, s = old +:+ post.
Proof.
  induction old as [|a old IH]; intros s; cbn [startswith].
  - split; [intros _; exists s; reflexivity | reflexivity].
  - destruct s as [|b s].
    + split; [discriminate | intros [post H]; discriminate].
    + destruct (Ascii.eqb_spec a b) as [->|Hne].
      * rewrite IH. split; intros [post H]; exists post;
          rewrite append_cons in *; congruence.
      * split; [discriminate|].
        intros [post H]. rewrite append_cons in H. congruence.
Qed.

Lemma occurs_at_0 (old s : string) :
  occurs_at old s 0 <-> startswith s old = true.
Proof.
  rewrite startswith_spec. split.
  - intros ([|c pre] & post & -> & Hlen); [|discriminate].
    exists post. reflexivity.
  - intros [post ->]. exists EmptyString, post. split; reflexivity.
Qed.

Lemma occurs_at_S (old : string) (c : Ascii.ascii) (s : string) (n : nat) :
  occurs_at old (String c s) (S n) <-> occurs_at old s n.
Proof.
  split.
  - intros ([|c' pre] & post & Heq & Hlen); [discriminate|].
    rewrite append_cons in Heq. cbn [String.length] in Hlen.
    injection Heq as -> ->.
    exists pre, post. split; [reflexivity | lia].
  - intros (pre & post & -> & Hlen).
    exists (String c pre), post. split; [reflexivity | cbn [String.length]; lia].
Qed.

Lemma occurs_at_empty (old : string) (n : nat) :
  old <> EmptyString -> ~ occurs_at old EmptyString n.
Proof.
  intros Hold ([|c pre] & post & Heq & _); [|discriminate].
  destruct old; [congruence | discriminate].
Qed.

(** Having replaced an occurrence, the scan passes over the rest of it. *)
Lemma replace_scan_skip (old new t : string) :
  forall post,
    replace_scan old new (t +:+ post) (String.length t)
    = replace_scan old new post 0.
Proof.
  induction t as [|c t IH]; intros post.
  - rewrite append_nil_l. destruct post; reflexivity.
  - rewrite append_cons. cbn [String.length replace_scan]. apply IH.
Qed.

Lemma replace_scan_hit (old new post : string) :
  old <> EmptyString ->
  replace_scan old new (old +:+ post) 0 = new +:+ replace_scan old new post 0.
Proof.
  intros Hold. destruct old as [|a old]; [congruence|].
  assert (Hs : startswith (String a old +:+ post) (String a old) = true)
    by (apply startswith_spec; eauto).
  rewrite append_cons in *. cbn [replace_scan]. rewrite Hs.
  cbn [String.length]. rewrite Nat.sub_1_r. cbn [Nat.pred].
  now rewrite replace_scan_skip.
Qed.

Lemma replace_scan_miss (old new : string) (c : Ascii.ascii) (s : string) :
  startswith (String c s) old = false ->
  replace_scan old new (String c s) 0 = String c (replace_scan old new s 0).
Proof. intros H. cbn [replace_scan]. now rewrite H. Qed.

(** A character that starts no occurrence is kept in front of the
    rewritten rest. *)
Lemma replaced_all_cons (old new : string) (c : Ascii.ascii) (s r : string) :
  old <> EmptyString -> startswith (String c s) old = false ->
  replaced_all old new s r ->
  replaced_all old new (String c s) (String c r).
Proof.
  intros Hold Hmiss Hr. destruct Hr as [s _ Hnone | pre post r _ Hmin Hr | s ->].
  - apply replaced_none; [assumption|].
    intros [|n] Hocc.
    + apply occurs_at_0 in Hocc. congruence.
    + apply occurs_at_S in Hocc. exact (Hnone n Hocc).
  - rewrite <- !append_cons.
    apply replaced_first; [assumption| |assumption].
    intros [|n] Hocc.
    + apply occurs_at_0 in Hocc. rewrite append_cons in Hocc. congruence.
    + rewrite append_cons in Hocc. apply occurs_at_S, Hmin in Hocc.
      cbn [String.length]. lia.
  - congruence.
Qed.

Lemma replace_scan_replaced_all (old new : string) :
  old <> EmptyString ->
  forall n s, String.length s <= n ->
    replaced_all old new s (replace_scan old new s 0).
Proof.
  intros Hold. induction n as [|n IH]; intros s Hlen.
  - destruct s; [|cbn [String.length] in Hlen; lia].
    apply replaced_none; [assumption|].
    intros k. now apply occurs_at_empty.
  - destruct s as [|c s].
    + apply replaced_none; [assumption|].
      intros k. now apply occurs_at_empty.
    + destruct (startswith (String c s) old) eqn:Hs.
      * apply startswith_spec in Hs as [post Hs].
        assert (Hpost : String.length post <= n).
        { apply (f_equal String.length) in Hs.
          rewrite length_append in Hs. cbn [String.length] in Hs, Hlen.
          destruct old; [congruence|]. cbn [String.length] in Hs. lia. }
        rewrite Hs, replace_scan_hit by assumption.
        apply (replaced_first old new EmptyString post); [assumption| |].
        -- intros k _. cbn [String.length]. lia.
        -- apply IH, Hpost.
      * rewrite replace_scan_miss by assumption.
        apply replaced_all_cons; [assumption | assumption |].
        apply IH. cbn [String.length] in Hlen. lia.
Qed.

(** [str.replace] meets its description, for an empty [old] too. *)
Lemma str_replace_replaced_all (s old new : string) :
  replaced_all old new s (str_replace s old new).
Proof.
  unfold str_replace. destruct old as [|a old].
  - now apply replaced_everywhere.
  - apply (replace_scan_replaced_all (String a old) new) with (n := String.length s);
      [discriminate | lia].
Qed.

Lemma replace_annotations_rewritten (anns : list Annotation) :
  forall index value,
    rewritten index anns value (replace_annotations index anns value).
Proof.
  induction anns as [|a rest IH]; intros index value; cbn [replace_annotations].
  - constructor.
  - econstructor; [apply str_replace_replaced_all | apply IH].
Qed.

Lemma str_replace_nonempty (s old new : string) :
  old <> EmptyString -> str_replace s old new = replace_scan old new s 0.
Proof. destruct old; [congruence | reflexivity]. Qed.

Lemma replace_scan_no_occurrence (old new : string) :
  forall s, (forall n, ~ occurs_at old s n) -> replace_scan old new s 0 = s.
Proof.
  induction s as [|c s IH]; intros Hnone; [reflexivity|].
  rewrite replace_scan_miss.
  - f_equal. apply IH. intros n Hocc. apply (Hnone (S n)).
    now apply occurs_at_S.
  - destruct (startswith (String c s) old) eqn:Hs; [|reflexivity].
    apply occurs_at_0 in Hs. now apply Hnone in Hs.
Qed.

Lemma replace_scan_first_occurrence (old new post : string) :
  old <> EmptyString ->
  forall pre,
    (forall n, occurs_at old (pre +:+ old +:+ post) n -> String.length pre <= n) ->
    replace_scan old new (pre +:+ old +:+ post) 0
    = pre +:+ new +:+ replace_scan old new post 0.
Proof.
  intros Hold. induction pre as [|c pre IH]; intros Hmin.
  - rewrite !append_nil_l. now apply replace_scan_hit.
  - rewrite !append_cons in *. rewrite replace_scan_miss.
    + f_equal. apply IH. intros n Hocc.
      apply occurs_at_S with (c := c), Hmin in Hocc.
      cbn [String.length] in Hocc. lia.
    + destruct (startswith _ old) eqn:Hs; [|reflexivity].
      apply occurs_at_0, Hmin in Hs. cbn [String.length] in Hs. lia.
Qed.

(** The description determines the result: it holds of no other string
    than the one [str.replace] computes. *)
Lemma replaced_all_unique (old new s r : string) :
  replaced_all old new s r -> r = str_replace s old new.
Proof.
  induction 1 as [s Hold Hnone | pre post r Hold Hmin _ IH | s ->].
  - rewrite str_replace_nonempty, replace_scan_no_occurrence by assumption.
    reflexivity.
  - rewrite str_replace_nonempty in * by assumption.
    rewrite replace_scan_first_occurrence by assumption. now rewrite IH.
  - reflexivity.
Qed.

(** ** The streaming response collector *)

(** C2, as stated, fails: [str.replace] rewrites every occurrence of the
    annotation's text, not only the one at the annotation's span.  The
    second "[c]" below is no annotation's occurrence, and is rewritten. *)
Lemma on_message_done_rewrites_other_occurrence :
  let cite := mkAnnotation "[c]" 4 7 in
  let message :=
    mkMessage [TextContentBlock (mkText "See [c], not [c]." [cite])] in
  replace_matched_span "See [c], not [c]." cite 0 = "See [0], not [c]."
  /\ exists h message',
      on_message_done (EventHandler_init None) message = Return (h, message')
      /\ parse_response h = Some "See [0], not [0]."
      /\ parse_response h
         <> Some (replace_matched_span "See [c], not [c]." cite 0).
Proof.
  split; [reflexivity|]. eexists _, _. split; [reflexivity|].
  split; [reflexivity | discriminate].
Qed.

(** C2 (amended): for every finalized message whose first content block
    is a text payload, the finalize handler takes the annotations in
    server order and replaces, for the annotation at list index [i], every
    occurrence of its literal text in the text rewritten so far, left to
    right without overlap, by the marker "[i]", leaving every other
    character unchanged; the rewritten text is stored as the collected
    result (and assigned to the payload's value). *)
Theorem on_message_done_rewrites (self : EventHandler) (message : Message)
    (message_content : Text) (blocks : list ContentBlock) :
  content message = TextContentBlock message_content :: blocks ->
  exists r,
    on_message_done self message =
      Return (mkEventHandler (Some r),
              mkMessage (TextContentBlock
                           (mkText r (annotations message_content)) :: blocks))
    /\ rewritten 0 (annotations message_content) (text_value message_content) r.
Proof.
  intros Hcontent. unfold on_message_done. rewrite Hcontent.
  eexists. split; [reflexivity | apply replace_annotations_rewritten].
Qed.

Lemma on_message_done_rewrites_witness :
  exists r,
    on_message_done (EventHandler_init None) cited_message =
      Return (mkEventHandler (Some r),
              mkMessage [TextContentBlock
                           (mkText r [mkAnnotation "[cite1]" 4 11])])
    /\ rewritten 0 [mkAnnotation "[cite1]" 4 11] "See [cite1] for details." r.
Proof.
  apply (on_message_done_rewrites (EventHandler_init None) cited_message
           (mkText "See [cite1] for details." [mkAnnotation "[cite1]" 4 11]) []).
  reflexivity.
Defined.

(** C8: for every finalized message whose annotation list is empty, the
    collector stores the text payload's value unchanged: the collected
    output equals the input text (and the message is as it was). *)
Theorem on_message_done_no_annotations (self : EventHandler) (message : Message)
    (message_content : Text) (blocks : list ContentBlock) :
  content message = TextContentBlock message_content :: blocks ->
  annotations message_content = [] ->
  on_message_done self message =
    Return (mkEventHandler (Some (text_value message_content)), message).
Proof.
  intros Hcontent Hanns. unfold on_message_done. rewrite Hcontent, Hanns.
  destruct message as [c], message_content as [v anns].
  cbn in *. subst. reflexivity.
Qed.

Lemma on_message_done_no_annotations_witness :
  on_message_done (EventHandler_init None)
    (mkMessage [TextContentBlock (mkText "No sources were used." [])])
  = Return (mkEventHandler (Some "No sources were used."),
            mkMessage [TextContentBlock (mkText "No sources were used." [])]).
Proof.
  apply (on_message_done_no_annotations _ _ (mkText "No sources were used." []) []);
    reflexivity.
Defined.

Example replace_all_occurrences :
  str_replace "a-b-c" "-" "[0]" = "a[0]b[0]c".
Proof. reflexivity. Qed.

Example replace_non_overlapping :
  str_replace "aaaaa" "aa" "x" = "xxa".
Proof. reflexivity. Qed.

Example replace_empty_old :
  str_replace "abc" EmptyString "-" = "-a-b-c-".
Proof. reflexivity. Qed.

Example index_marker_12 : index_marker 12 = "[12]".
Proof. reflexivity. Qed.

(** Two distinct annotated substrings, each occurring once. *)
Example on_message_done_two_citations :
  on_message_done (EventHandler_init None)
    (mkMessage [TextContentBlock
                  (mkText "Rates rose [a1] and fell [b2]."
                          [mkAnnotation "[a1]" 11 15; mkAnnotation "[b2]" 25 29])])
  = Return (mkEventHandler (Some "Rates rose [0] and fell [1]."),
            mkMessage [TextContentBlock
                  (mkText "Rates rose [0] and fell [1]."
                          [mkAnnotation "[a1]" 11 15; mkAnnotation "[b2]" 25 29])]).
Proof. reflexivity. Qed.

Example on_message_done_no_content :
  on_message_done (EventHandler_init None) (mkMessage []) = Raise IndexError.
Proof. reflexivity. Qed.

(** ** The manager's guards *)

Section ManagerProperties.

Context {R : Type} {client : OpenAI R}.

(** C4: [get_response] raises a precondition error when no thread is
    cached, and when a thread is cached but no assistant is; in both cases
    the world is left as it was, so no remote run is started. *)
Theorem get_response_precondition (self : ref) (g : GPT) (w : world R) :
  heap w !! self = Some g ->
  (thread g = None ->
   get_response self w
   = (Raise (RuntimeError "get_response did not receive thread"), w))
  /\ (thread g <> None -> assistant g = None ->
      get_response self w
      = (Raise (RuntimeError "get_response did not receive assistant"), w)).
Proof.
  intros Hself. unfold get_response, bind, read. rewrite Hself. split.
  - intros ->. reflexivity.
  - intros Hth ->. destruct (thread g); [reflexivity | congruence].
Qed.

(** C5: with no assistant cached, create-or-reuse with no name raises the
    missing-name error and leaves the world as it was: no remote list,
    retrieve or create call is attempted. *)
Theorem create_assistant_missing_name (self : ref) (g : GPT) (w : world R)
    (name instructions : option string) (kw : kwargs) :
  heap w !! self = Some g -> assistant g = None -> str_truthy name = false ->
  create_assistant self name instructions kw w
  = (Raise (RuntimeError "Missing name for assistant creation in GPT"), w).
Proof.
  intros Hself Hasst Hname. unfold create_assistant, bind, read.
  rewrite Hself, Hname, Hasst. reflexivity.
Qed.

(** C6: with an assistant cached, create-or-reuse with no name returns
    exactly the cached assistant; the instance, the service and the record
    of remote calls are as before, and one line is logged. *)
Theorem create_assistant_reuses_cached (self : ref) (g : GPT) (cached : Assistant)
    (w : world R) (name instructions : option string) (kw : kwargs) :
  heap w !! self = Some g -> assistant g = Some cached ->
  str_truthy name = false ->
  create_assistant self name instructions kw w
  = (Return cached,
     mkWorld (heap w) (service w) (calls w)
             (log w ++ [mkLog INFO "Using assistant found in object" []])).
Proof.
  intros Hself Hasst Hname. unfold create_assistant, bind, read.
  rewrite Hself, Hname, Hasst. reflexivity.
Qed.

End ManagerProperties.

Lemma get_response_precondition_witness :
  get_response (client := scripted) 0 (world_with (mkGPT (Some reviewer) None None))
  = (Raise (RuntimeError "get_response did not receive thread"),
     world_with (mkGPT (Some reviewer) None None))
  /\ get_response (client := scripted) 0
       (world_with (mkGPT None None (Some (mkThread "thread_1"))))
     = (Raise (RuntimeError "get_response did not receive assistant"),
        world_with (mkGPT None None (Some (mkThread "thread_1")))).
Proof.
  split.
  - apply (get_response_precondition (client := scripted) 0
             (mkGPT (Some reviewer) None None)); reflexivity.
  - apply (get_response_precondition (client := scripted) 0
             (mkGPT None None (Some (mkThread "thread_1"))));
      [reflexivity | discriminate | reflexivity].
Defined.

Lemma create_assistant_missing_name_witness :
  create_assistant (client := scripted) 0 None (Some "You review reports.")
    no_kwargs (world_with (mkGPT None None None))
  = (Raise (RuntimeError "Missing name for assistant creation in GPT"),
     world_with (mkGPT None None None)).
Proof.
  apply (create_assistant_missing_name (client := scripted) 0 (mkGPT None None None));
    reflexivity.
Defined.

Lemma create_assistant_reuses_cached_witness :
  create_assistant (client := scripted) 0 None None no_kwargs
    (world_with (mkGPT (Some reviewer) None None))
  = (Return reviewer,
     mkWorld [mkGPT (Some reviewer) None None] tt []
             [mkLog INFO "Using assistant found in object" []]).
Proof.
  apply (create_assistant_reuses_cached (client := scripted) 0
           (mkGPT (Some reviewer) None None) reviewer);
    reflexivity.
Defined.

(** ** Exceptions and the cached fields *)

Section CachedFields.

Context {R : Type} {client : OpenAI R}.

Lemma heap_stable_raise_stable {A} (m : M R A) :
  heap_stable m -> raise_stable m.
Proof. intros H w e w'. apply H. Qed.

Lemma heap_stable_ret {A} (a : A) : heap_stable (ret (R := R) a).
Proof. intros w r w' [= _ <-]. reflexivity. Qed.

Lemma heap_stable_raise {A} (e : exn) : heap_stable (raise (R := R) (A := A) e).
Proof. intros w r w' [= _ <-]. reflexivity. Qed.

Lemma heap_stable_emit (records : list LogRecord) : heap_stable (emit (R := R) records).
Proof. intros w r w' [= _ <-]. reflexivity. Qed.

Lemma heap_stable_logger_info (format : string) (args : list log_arg) :
  heap_stable (logger_info (R := R) format args).
Proof. apply heap_stable_emit. Qed.

Lemma heap_stable_remote {A} (call : RemoteCall) (op : R -> outcome A * R) :
  heap_stable (remote call op).
Proof.
  intros w r w'. unfold remote. destruct (op (service w)) as [r0 s].
  intros [= _ <-]. reflexivity.
Qed.

Lemma heap_stable_read (self : ref) : heap_stable (read (R := R) self).
Proof.
  intros w r w'. unfold read.
  destruct (heap w !! self); intros [= _ <-]; reflexivity.
Qed.

Lemma heap_stable_bind {A B} (m : M R A) (k : A -> M R B) :
  heap_stable m -> (forall a, heap_stable (k a)) -> heap_stable (bind m k).
Proof.
  intros Hm Hk w r w'. unfold bind.
  destruct (m w) as [[a|e] w1] eqn:Hmw.
  - intros Hkw. rewrite (Hk _ _ _ _ Hkw). exact (Hm _ _ _ Hmw).
  - intros [= _ <-]. exact (Hm _ _ _ Hmw).
Qed.

Lemma raise_stable_bind {A B} (m : M R A) (k : A -> M R B) :
  heap_stable m -> (forall a, raise_stable (k a)) -> raise_stable (bind m k).
Proof.
  intros Hm Hk w e w'. unfold bind.
  destruct (m w) as [[a|e0] w1] eqn:Hmw.
  - intros Hkw. rewrite (Hk _ _ _ _ Hkw). exact (Hm _ _ _ Hmw).
  - intros [= _ <-]. exact (Hm _ _ _ Hmw).
Qed.

(** An assignment raises only on a reference outside the store, and then
    changes nothing; what follows it in the methods raises nothing. *)
Lemma raise_stable_assign_then {B} (self : ref) (f : GPT -> GPT) (k : M R B) :
  no_raise k -> raise_stable (assign self f ;; k).
Proof.
  intros Hk w e w'. unfold bind, assign.
  destruct (heap w !! self).
  - intros Hkw. now apply Hk in Hkw.
  - intros [= _ <-]. reflexivity.
Qed.

Lemma no_raise_ret {A} (a : A) : no_raise (ret (R := R) a).
Proof. intros w e w'. discriminate. Qed.

Lemma no_raise_log_ret {A} (format : string) (args : list log_arg) (a : A) :
  no_raise (logger_info (R := R) format args ;; ret a).
Proof. intros w e w'. discriminate. Qed.

Lemma raise_stable_assign (self : ref) (f : GPT -> GPT) :
  raise_stable (assign (R := R) self f).
Proof.
  intros w e w'. unfold assign.
  destruct (heap w !! self); [discriminate|].
  intros [= _ <-]. reflexivity.
Qed.

Lemma heap_stable_find_assistant_loop (id_or_name : option string)
    (assistants : list Assistant) :
  heap_stable (find_assistant_loop id_or_name assistants).
Proof.
  induction assistants as [|asst rest IH]; cbn [find_assistant_loop].
  - apply heap_stable_ret.
  - repeat case_bool_decide; try exact IH;
      (apply heap_stable_bind;
       [apply heap_stable_remote | intros a; apply heap_stable_ret]).
Qed.

Lemma heap_stable_find_assistant (self : ref) (id_or_name : option string) :
  heap_stable (find_assistant self id_or_name).
Proof.
  unfold find_assistant. destruct (negb (str_truthy id_or_name)).
  - apply heap_stable_ret.
  - apply heap_stable_bind; [apply heap_stable_remote|].
    intros [|a l]; [apply heap_stable_ret|].
    apply heap_stable_find_assistant_loop.
Qed.

Lemma raise_stable_create_assistant (self : ref)
    (name instructions : option string) (kw : kwargs) :
  raise_stable (create_assistant self name instructions kw).
Proof.
  unfold create_assistant.
  apply raise_stable_bind; [apply heap_stable_read|]. intros g.
  destruct (str_truthy name).
  - apply raise_stable_bind; [apply heap_stable_find_assistant|].
    intros [asst|].
    + apply raise_stable_bind; [apply heap_stable_logger_info|]. intros _.
      apply raise_stable_assign_then, no_raise_ret.
    + apply raise_stable_bind; [apply heap_stable_remote|]. intros created.
      apply raise_stable_assign_then, no_raise_log_ret.
  - destruct (assistant g).
    + apply heap_stable_raise_stable, heap_stable_bind;
        [apply heap_stable_logger_info | intros _; apply heap_stable_ret].
    + apply heap_stable_raise_stable, heap_stable_raise.
Qed.

Lemma raise_stable_attach_file (self : ref) (_path : option string) :
  raise_stable (attach_file self _path).
Proof.
  unfold attach_file.
  apply raise_stable_bind; [apply heap_stable_remote|]. intros f.
  apply raise_stable_assign.
Qed.

Lemma raise_stable_create_thread (self : ref) (content : option string)
    (kw : kwargs) :
  raise_stable (create_thread self content kw).
Proof.
  unfold create_thread. destruct (negb (str_truthy content)).
  - apply heap_stable_raise_stable, heap_stable_raise.
  - apply raise_stable_bind; [apply heap_stable_read|]. intros g.
    destruct (message_file g).
    + apply raise_stable_bind; [apply heap_stable_remote|]. intros t.
      apply raise_stable_assign.
    + apply heap_stable_raise_stable, heap_stable_raise.
Qed.

Lemma heap_stable_until_done (evs : list StreamEvent) :
  forall h, heap_stable (until_done (R := R) evs h).
Proof.
  induction evs as [|ev rest IH]; intros h; cbn [until_done].
  - apply heap_stable_ret.
  - apply heap_stable_bind; [|intros h'; apply IH].
    destruct ev; cbn [dispatch].
    + apply heap_stable_bind;
        [apply heap_stable_logger_info | intros _; apply heap_stable_ret].
    + apply heap_stable_bind;
        [apply heap_stable_logger_info | intros _; apply heap_stable_ret].
    + destruct (on_message_done h message) as [[h' m']|e];
        [apply heap_stable_ret | apply heap_stable_raise].
Qed.

Lemma heap_stable_log_tokens (format : string) (_path : list string)
    (stream : value) :
  heap_stable (log_tokens (R := R) format _path stream).
Proof.
  unfold log_tokens. destruct (attribute_puller _path stream) as [[v|e] records];
    (apply heap_stable_bind; [apply heap_stable_emit | intros _]).
  - apply heap_stable_logger_info.
  - apply heap_stable_raise.
Qed.

(** [get_response] assigns no field at all. *)
Lemma heap_stable_get_response (self : ref) : heap_stable (get_response self).
Proof.
  unfold get_response.
  apply heap_stable_bind; [apply heap_stable_read|]. intros g.
  destruct (thread g) as [th|]; [|apply heap_stable_raise].
  destruct (assistant g) as [a|]; [|apply heap_stable_raise].
  apply heap_stable_bind; [apply heap_stable_remote|]. intros run.
  apply heap_stable_bind; [apply heap_stable_until_done|]. intros h.
  repeat (apply heap_stable_bind; [apply heap_stable_log_tokens | intros _]).
  apply heap_stable_ret.
Qed.

(** C10: whenever a manager operation raises one of its guard errors
    (the missing-name error of [create_assistant], the missing-content
    error of [create_thread], the missing-thread or missing-assistant error
    of [get_response]), every manager instance, and so the cached
    assistant, file and thread, is exactly as before the call. *)
Theorem guard_error_keeps_fields (self : ref) (w w' : world R) :
  (forall name instructions kw,
     create_assistant self name instructions kw w
     = (Raise (RuntimeError "Missing name for assistant creation in GPT"), w') ->
     heap w' = heap w)
  /\ (forall content kw,
        create_thread self content kw w
        = (Raise (RuntimeError "No content provided for create_thread [hqt673]"), w') ->
        heap w' = heap w)
  /\ (get_response self w
      = (Raise (RuntimeError "get_response did not receive thread"), w') ->
      heap w' = heap w)
  /\ (get_response self w
      = (Raise (RuntimeError "get_response did not receive assistant"), w') ->
      heap w' = heap w).
Proof.
  repeat split.
  - intros name instructions kw. apply raise_stable_create_assistant.
  - intros content kw. apply raise_stable_create_thread.
  - apply heap_stable_get_response.
  - apply heap_stable_get_response.
Qed.

End CachedFields.

Lemma guard_error_keeps_fields_witness :
  let unset := world_with (mkGPT None None None) in
  let no_assistant := world_with (mkGPT None None (Some (mkThread "thread_1"))) in
  heap unset = heap unset /\ heap unset = heap unset
  /\ heap unset = heap unset /\ heap no_assistant = heap no_assistant.
Proof.
  intros unset no_assistant.
  pose proof (guard_error_keeps_fields (client := scripted) 0 unset unset)
    as (Hname & Hcontent & Hthread & _).
  pose proof (guard_error_keeps_fields (client := scripted) 0
                no_assistant no_assistant) as (_ & _ & _ & Hassistant).
  split; [|split; [|split]].
  - apply (Hname None (Some "You review reports.") no_kwargs). reflexivity.
  - apply (Hcontent None no_kwargs). reflexivity.
  - apply Hthread. reflexivity.
  - apply Hassistant. reflexivity.
Defined.

(** ** The entry point *)

Section EntryPoint.

Context {R : Type} {client : OpenAI R}.

(** With no manager supplied, a new instance is made and all four steps
    run on it. *)
Lemma send_pdf_to_openai_fresh
    (assistant_name assistant_instructions thread_content file_path : option string)
    (w : world R) :
  send_pdf_to_openai assistant_name assistant_instructions thread_content
                     file_path None w
  = (let* fresh := GPT_init in
     create_assistant fresh assistant_name assistant_instructions no_kwargs ;;
     attach_file fresh file_path ;;
     create_thread fresh thread_content no_kwargs ;;
     get_response fresh) w.
Proof.
  unfold send_pdf_to_openai, bind, GPT_init, ret. cbn [fst snd].
  destruct (create_assistant _ _ _ _ _) as [[a|e] w1]; [|reflexivity].
  destruct (attach_file _ _ _) as [[u|e] w2]; [|reflexivity].
  destruct (create_thread _ _ _ _) as [[u'|e] w3]; [|reflexivity].
  destruct (get_response _ _) as [[res|e] w4]; reflexivity.
Qed.

(** C1, at a supplied manager: the first three steps run on the supplied
    instance; if one of them raises, that exception is the result, and
    otherwise the read of the unbound local [gpt] raises
    [UnboundLocalError], in the world the three steps left.  The response
    is never fetched and no text is returned. *)
Theorem send_pdf_to_openai_supplied
    (assistant_name assistant_instructions thread_content file_path : option string)
    (supplied : ref) (w : world R) :
  send_pdf_to_openai assistant_name assistant_instructions thread_content
                     file_path (Some supplied) w
  = match (create_assistant supplied assistant_name assistant_instructions
                            no_kwargs ;;
           attach_file supplied file_path ;;
           create_thread supplied thread_content no_kwargs) w with
    | (Return _, w') => (Raise (UnboundLocalError "gpt"), w')
    | (Raise e, w') => (Raise e, w')
    end.
Proof.
  unfold send_pdf_to_openai, bind, ret, raise. cbn [fst snd].
  destruct (create_assistant _ _ _ _ _) as [[a|e] w1]; [|reflexivity].
  destruct (attach_file _ _ _) as [[u|e] w2]; [|reflexivity].
  destruct (create_thread _ _ _ _) as [[u'|e] w3]; reflexivity.
Qed.

Lemma send_pdf_to_openai_supplied_never_returns
    (assistant_name assistant_instructions thread_content file_path : option string)
    (supplied : ref) (w : world R) :
  exists e w',
    send_pdf_to_openai assistant_name assistant_instructions thread_content
                       file_path (Some supplied) w = (Raise e, w').
Proof.
  unfold send_pdf_to_openai, bind, ret, raise. cbn [fst snd].
  destruct (create_assistant _ _ _ _ _) as [[a|e] w1]; [|eauto].
  destruct (attach_file _ _ _) as [[u|e] w2]; [|eauto].
  destruct (create_thread _ _ _ _) as [[u'|e] w3]; eauto.
Qed.

End EntryPoint.

(** The end-to-end scenario with no manager supplied: the existing
    assistant is reused and the normalized text is returned. *)
Example send_pdf_to_openai_scenario :
  let result :=
    send_pdf_to_openai (client := scripted) (Some "Reviewer") None
      (Some "Summarize this.") (Some "report.pdf") None empty_world in
  fst result = Return (Some "See [0] for details.")
  /\ heap (snd result)
     = [mkGPT (Some reviewer) (Some (mkFileObject "file_1"))
              (Some (mkThread "thread_1"))]
  /\ calls (snd result)
     = [CallAssistantsList; CallAssistantsRetrieve "asst_1";
        CallFilesCreate (Some "report.pdf");
        CallThreadsCreate
          [mkThreadMessage "user" (Some "Summarize this.")
             [mkAttachment "file_1" [mkTool "file_search"]]];
        CallRunsStream "thread_1" "asst_1"].
Proof. vm_compute. repeat split; reflexivity. Qed.

(** The same scenario with the caller's own manager: the three steps are
    done on it, then the call fails and no run is started. *)
Example send_pdf_to_openai_scenario_supplied :
  let result :=
    send_pdf_to_openai (client := scripted) (Some "Reviewer") None
      (Some "Summarize this.") (Some "report.pdf") (Some 0)
      (world_with (mkGPT None None None)) in
  fst result = Raise (UnboundLocalError "gpt")
  /\ heap (snd result)
     = [mkGPT (Some reviewer) (Some (mkFileObject "file_1"))
              (Some (mkThread "thread_1"))]
  /\ calls (snd result)
     = [CallAssistantsList; CallAssistantsRetrieve "asst_1";
        CallFilesCreate (Some "report.pdf");
        CallThreadsCreate
          [mkThreadMessage "user" (Some "Summarize this.")
             [mkAttachment "file_1" [mkTool "file_search"]]]].
Proof. vm_compute. repeat split; reflexivity. Qed.

(** * Further properties *)

(** ** More on the attribute path resolver *)

Lemma attribute_puller_loop_log (_path : list string) (_obj : value) :
  forall ret,
    snd (attribute_puller_loop _path _obj ret) = []
    \/ exists attr, attr ∈ _path
         /\ snd (attribute_puller_loop _path _obj ret)
            = [attribute_not_found attr _obj].
Proof.
  induction _path as [|a rest IH]; intros ret.
  - left. reflexivity.
  - rewrite attribute_puller_loop_step.
    destruct (getattr_default _ a VNone) as [ret'|e]; [|left; reflexivity].
    destruct (truthy ret').
    + destruct (IH ret') as [Hnil | (attr & Hin & Hlog)].
      * left. exact Hnil.
      * right. exists attr. split; [now apply list_elem_of_further | exact Hlog].
    + right. exists a. split; [apply list_elem_of_here | reflexivity].
Qed.

(** X1: the resolver logs at most one record, and that record is the
    error naming an attribute of the path and the root object. *)
Theorem attribute_puller_logs_at_most_once (_path : list string) (_obj : value) :
  snd (attribute_puller _path _obj) = []
  \/ exists attr, attr ∈ _path
       /\ snd (attribute_puller _path _obj) = [attribute_not_found attr _obj].
Proof.
  unfold attribute_puller. destruct _path as [|a rest]; [left; reflexivity|].
  destruct (negb (truthy _obj)); [left; reflexivity|].
  apply attribute_puller_loop_log.
Qed.

(** X2: a truthy result is never an intermediate value: the path was not
    empty, the root was truthy, the whole chain was walked, the result is
    its leaf and nothing was logged. *)
Theorem attribute_puller_truthy_is_leaf (_path : list string) (_obj v : value)
    (records : list LogRecord) :
  attribute_puller _path _obj = (Return v, records) -> truthy v = true ->
  _path <> [] /\ truthy _obj = true /\ walk _obj _path = Leaf v /\ records = [].
Proof.
  intros Hres Hv.
  destruct _path as [|a rest].
  - cbn in Hres. injection Hres as <- <-. discriminate.
  - destruct (truthy _obj) eqn:Hobj.
    + rewrite attribute_puller_walk in Hres by (congruence || assumption).
      destruct (walk _obj (a :: rest)) as [leaf | attr [x|] | attr e] eqn:Hw.
      * injection Hres as <- <-. repeat split; congruence.
      * injection Hres as <- <-. cbn [default from_option id] in Hv.
        apply walk_stopped_falsy in Hw. congruence.
      * injection Hres as <- <-. discriminate.
      * discriminate.
    + unfold attribute_puller in Hres. rewrite Hobj in Hres.
      injection Hres as <- <-. discriminate.
Qed.

Lemma attribute_puller_truthy_is_leaf_witness :
  ["usage"; "total_tokens"] <> [] /\ truthy usage_run = true
  /\ walk usage_run ["usage"; "total_tokens"] = Leaf (VInt 12)
  /\ @nil LogRecord = [].
Proof.
  apply (attribute_puller_truthy_is_leaf ["usage"; "total_tokens"] usage_run
           (VInt 12) []); vm_compute; reflexivity.
Defined.

(** X3: paths compose: when a non-empty first part resolves to a leaf on
    a truthy root, resolving the whole path from the root gives the value
    that resolving the second part from that leaf gives. *)
Theorem attribute_puller_app (p1 p2 : list string) (_obj v : value) :
  p1 <> [] -> p2 <> [] -> truthy _obj = true -> walk _obj p1 = Leaf v ->
  fst (attribute_puller (p1 ++ p2) _obj) = fst (attribute_puller p2 v).
Proof.
  intros H1 H2 Hobj Hw.
  assert (Hv : truthy v = true) by exact (walk_leaf_truthy p1 _obj v H1 Hw).
  rewrite (attribute_puller_walk (p1 ++ p2)); [|destruct p1; [congruence|discriminate]|assumption].
  rewrite (attribute_puller_walk p2) by assumption.
  rewrite walk_app, Hw. destruct (walk v p2); reflexivity.
Qed.

Lemma attribute_puller_app_witness :
  fst (attribute_puller (["usage"] ++ ["prompt_tokens"]) usage_run)
  = fst (attribute_puller ["prompt_tokens"]
           (VObj true (<["completion_tokens" := VInt 0]>
                         (<["prompt_tokens" := VInt 12]>
                            (<["total_tokens" := VInt 12]> ∅))))).
Proof.
  apply attribute_puller_app;
    [discriminate | discriminate | reflexivity | vm_compute; reflexivity].
Defined.

(** ** More on the citation rewrite *)

Lemma str_find_none (old : string) :
  forall s, str_find s old = None -> forall n, ~ occurs_at old s n.
Proof.
  induction s as [|c s IH]; cbn [str_find];
    destruct (startswith _ old) eqn:Hs; try discriminate; intros Hfind n Hocc.
  - destruct n as [|n]; [apply occurs_at_0 in Hocc; congruence|].
    destruct Hocc as ([|c pre] & post & Heq & Hlen); discriminate.
  - destruct n as [|n]; [apply occurs_at_0 in Hocc; congruence|].
    apply occurs_at_S in Hocc.
    destruct (str_find s old); [discriminate|]. now apply (IH eq_refl n).
Qed.

Lemma str_find_some (old : string) :
  forall s n, str_find s old = Some n ->
    occurs_at old s n /\ forall m, occurs_at old s m -> n <= m.
Proof.
  induction s as [|c s IH]; intros n; cbn [str_find];
    destruct (startswith _ old) eqn:Hs; try discriminate.
  - intros [= <-]. split; [now apply occurs_at_0 | lia].
  - intros [= <-]. split; [now apply occurs_at_0 | lia].
  - destruct (str_find s old) as [k|]; [|discriminate]. intros [= <-].
    destruct (IH k eq_refl) as [Hocc Hmin]. split.
    + now apply occurs_at_S.
    + intros [|m] Hm; [apply occurs_at_0 in Hm; congruence|].
      apply occurs_at_S, Hmin in Hm. lia.
Qed.

Lemma replace_annotations_absent (anns : list Annotation) (value : string) :
  Forall (fun a => str_find value (ann_text a) = None) anns ->
  forall index, replace_annotations index anns value = value.
Proof.
  induction 1 as [|a rest Ha _ IH]; intros index; [reflexivity|].
  cbn [replace_annotations].
  assert (Hold : ann_text a <> EmptyString).
  { intros Hempty. rewrite Hempty in Ha. destruct value; discriminate. }
  rewrite str_replace_nonempty by assumption.
  rewrite replace_scan_no_occurrence by (now apply str_find_none).
  apply IH.
Qed.

(** X4: annotations whose text does not occur in the payload change
    nothing: the collected result is the input text and the message is as
    it was. *)
Theorem on_message_done_absent_annotations (self : EventHandler)
    (message : Message) (message_content : Text) (blocks : list ContentBlock) :
  content message = TextContentBlock message_content :: blocks ->
  Forall (fun a => str_find (text_value message_content) (ann_text a) = None)
         (annotations message_content) ->
  on_message_done self message =
    Return (mkEventHandler (Some (text_value message_content)), message).
Proof.
  intros Hcontent Habsent. unfold on_message_done. rewrite Hcontent.
  rewrite replace_annotations_absent by assumption.
  destruct message as [c], message_content as [v anns].
  cbn in *. subst. reflexivity.
Qed.

Lemma on_message_done_absent_annotations_witness :
  on_message_done (EventHandler_init None)
    (mkMessage [TextContentBlock
                  (mkText "No sources." [mkAnnotation "[cite1]" 4 11])])
  = Return (mkEventHandler (Some "No sources."),
            mkMessage [TextContentBlock
                         (mkText "No sources." [mkAnnotation "[cite1]" 4 11])]).
Proof.
  apply (on_message_done_absent_annotations _ _
           (mkText "No sources." [mkAnnotation "[cite1]" 4 11]) []);
    [reflexivity | repeat constructor].
Defined.

Lemma string_append_assoc (a b c : string) :
  (a +:+ b) +:+ c = a +:+ b +:+ c.
Proof.
  induction a as [|x a IH]; [reflexivity|].
  rewrite !append_cons. now rewrite IH.
Qed.

Lemma substring_prefix (pre : string) :
  forall x, String.substring 0 (String.length pre) (pre +:+ x) = pre.
Proof.
  induction pre as [|c pre IH]; intros x.
  - destruct x; reflexivity.
  - rewrite append_cons. cbn [String.length String.substring]. now rewrite IH.
Qed.

Lemma substring_skip (pre : string) :
  forall m x,
    String.substring (String.length pre) m (pre +:+ x) = String.substring 0 m x.
Proof.
  induction pre as [|c pre IH]; intros m x; [reflexivity|].
  rewrite append_cons. cbn [String.length String.substring]. apply IH.
Qed.

Lemma substring_all (x : string) :
  String.substring 0 (String.length x) x = x.
Proof.
  induction x as [|c x IH]; [reflexivity|].
  cbn [String.length String.substring]. now rewrite IH.
Qed.

(** A text around the first occurrence of [old], with the offsets of an
    annotation that reports that occurrence. *)
Lemma replace_matched_span_first (pre old post : string) (a : Annotation)
    (index : nat) :
  start_index a = String.length pre ->
  end_index a = start_index a + String.length old ->
  replace_matched_span (pre +:+ old +:+ post) a index
  = pre +:+ index_marker index +:+ post.
Proof.
  intros Hstart Hend. unfold replace_matched_span.
  rewrite Hend, Hstart, substring_prefix.
  rewrite <- length_append, <- (string_append_assoc pre old post).
  rewrite substring_skip, (length_append (pre +:+ old) post).
  replace (String.length (pre +:+ old) + String.length post
           - String.length (pre +:+ old))
    with (String.length post) by lia.
  now rewrite substring_all.
Qed.

Lemma substring_after (pre old post : string) :
  String.substring (String.length pre + String.length old)
    (String.length (pre +:+ old +:+ post)
     - (String.length pre + String.length old))
    (pre +:+ old +:+ post)
  = post.
Proof.
  rewrite <- length_append, <- (string_append_assoc pre old post).
  rewrite substring_skip, (length_append (pre +:+ old) post).
  replace (String.length (pre +:+ old) + String.length post
           - String.length (pre +:+ old))
    with (String.length post) by lia.
  apply substring_all.
Qed.

Lemma str_find_empty_old (s : string) : str_find s EmptyString = Some 0.
Proof. destruct s; reflexivity. Qed.

(** X5: when a message has one annotation, the annotation's span is the
    first occurrence of its text ([value.find(text) == start_index], the
    span as long as the text) and the text does not occur again after the
    span, the collected result is the text with exactly that span replaced
    by "[0]". *)
Theorem on_message_done_single_citation (self : EventHandler) (message : Message)
    (value : string) (a : Annotation) (blocks : list ContentBlock) :
  content message = TextContentBlock (mkText value [a]) :: blocks ->
  str_find value (ann_text a) = Some (start_index a) ->
  end_index a = start_index a + String.length (ann_text a) ->
  str_find (String.substring (end_index a) (String.length value - end_index a)
                             value)
           (ann_text a) = None ->
  on_message_done self message =
    Return (mkEventHandler (Some (replace_matched_span value a 0)),
            mkMessage (TextContentBlock
                         (mkText (replace_matched_span value a 0) [a])
                       :: blocks)).
Proof.
  intros Hcontent Hfind Hend Hrest.
  assert (Hold : ann_text a <> EmptyString).
  { intros Hempty. rewrite Hempty, str_find_empty_old in Hrest. discriminate. }
  apply str_find_some in Hfind as [(pre & post & -> & Hpre) Hmin].
  rewrite <- Hpre in Hmin.
  rewrite Hend, <- Hpre, substring_after in Hrest.
  unfold on_message_done. rewrite Hcontent.
  cbn [annotations text_value replace_annotations].
  rewrite str_replace_nonempty by assumption.
  rewrite replace_scan_first_occurrence by assumption.
  rewrite (replace_scan_no_occurrence _ _ post) by (now apply str_find_none).
  rewrite replace_matched_span_first by (assumption || (symmetry; assumption)).
  reflexivity.
Qed.

Lemma on_message_done_single_citation_witness :
  on_message_done (EventHandler_init None) cited_message =
    Return (mkEventHandler
              (Some (replace_matched_span "See [cite1] for details."
                       (mkAnnotation "[cite1]" 4 11) 0)),
            mkMessage [TextContentBlock
                         (mkText (replace_matched_span "See [cite1] for details."
                                    (mkAnnotation "[cite1]" 4 11) 0)
                                 [mkAnnotation "[cite1]" 4 11])]).
Proof.
  apply (on_message_done_single_citation (EventHandler_init None) cited_message
           "See [cite1] for details." (mkAnnotation "[cite1]" 4 11) []);
    reflexivity.
Defined.

Lemma append_inj_l (t : string) :
  forall s1 s2, s1 +:+ t = s2 +:+ t -> s1 = s2.
Proof.
  induction s1 as [|c s1 IH]; intros [|d s2] Heq.
  - reflexivity.
  - apply (f_equal String.length) in Heq.
    rewrite append_cons in Heq. cbn [String.length] in Heq.
    rewrite ?length_append in Heq. cbn [String.length] in Heq. lia.
  - apply (f_equal String.length) in Heq.
    rewrite append_cons in Heq. cbn [String.length] in Heq.
    rewrite ?length_append in Heq. cbn [String.length] in Heq. lia.
  - rewrite !append_cons in Heq. injection Heq as -> Heq.
    f_equal. now apply IH.
Qed.

Lemma to_uint_not_nil (n : nat) : Nat.to_uint n <> Decimal.Nil.
Proof.
  intros Hnil. pose proof (Unsigned.of_to n) as Hn.
  rewrite Hnil in Hn. cbn in Hn. subst n. discriminate.
Qed.

(** X6: distinct list indices get distinct markers, so the citations of
    different annotations stay apart in the rewritten text. *)
Theorem index_marker_inj (i j : nat) :
  index_marker i = index_marker j -> i = j.
Proof.
  unfold index_marker. intros Heq.
  rewrite !append_cons, !append_nil_l in Heq. injection Heq as Heq.
  apply append_inj_l in Heq.
  apply (f_equal NilZero.uint_of_string) in Heq.
  rewrite !NilZero.usu in Heq by apply to_uint_not_nil.
  injection Heq as Heq. now apply Unsigned.to_uint_inj.
Qed.

Lemma index_marker_inj_witness : 7 = 7.
Proof. apply index_marker_inj. reflexivity. Defined.

(** ** Looking an assistant up *)

Section FindAssistant.

Context {R : Type} {client : OpenAI R}.

Lemma matches_assistant_false (id_or_name : option string) (asst : Assistant) :
  matches_assistant id_or_name asst = false ->
  bool_decide (Some (asst_id asst) = id_or_name) = false
  /\ bool_decide (asst_name asst = id_or_name) = false.
Proof. unfold matches_assistant. apply orb_false_elim. Qed.

(** Entries that do not match are passed over without any call. *)
Lemma find_assistant_loop_skip (id_or_name : option string)
    (pre rest : list Assistant) (w : world R) :
  Forall (fun a => matches_assistant id_or_name a = false) pre ->
  find_assistant_loop id_or_name (pre ++ rest) w
  = find_assistant_loop id_or_name rest w.
Proof.
  induction 1 as [|asst pre Hasst _ IH]; [reflexivity|].
  apply matches_assistant_false in Hasst as [Hid Hname].
  cbn [app find_assistant_loop]. rewrite Hid, Hname. exact IH.
Qed.

(** The first matching entry is fetched again by its id. *)
Lemma find_assistant_loop_match (id_or_name : option string)
    (asst : Assistant) (post : list Assistant) (w : world R) :
  matches_assistant id_or_name asst = true ->
  find_assistant_loop id_or_name (asst :: post) w
  = (let* a := remote (CallAssistantsRetrieve (asst_id asst))
                      (beta_assistants_retrieve (asst_id asst)) in
     ret (Some a)) w.
Proof.
  unfold matches_assistant. intros Hm. cbn [find_assistant_loop].
  destruct (bool_decide (Some (asst_id asst) = id_or_name)); [reflexivity|].
  cbn [orb] in Hm. rewrite Hm. reflexivity.
Qed.

(** X7: when the listing succeeds and no entry has the identifier as its
    id or as its name, [find_assistant] returns [None] after the one list
    call: nothing is retrieved. *)
Theorem find_assistant_no_match (self : ref) (id_or_name : option string)
    (assistants : list Assistant) (s' : R) (w : world R) :
  str_truthy id_or_name = true ->
  beta_assistants_list (service w) = (Return assistants, s') ->
  Forall (fun a => matches_assistant id_or_name a = false) assistants ->
  find_assistant self id_or_name w
  = (Return None,
     mkWorld (heap w) s' (calls w ++ [CallAssistantsList]) (log w)).
Proof.
  intros Hid Hlist Hnone. unfold find_assistant. rewrite Hid. cbn [negb].
  unfold bind, remote. rewrite Hlist.
  destruct assistants as [|asst rest]; [reflexivity|].
  rewrite <- (app_nil_r (asst :: rest)).
  rewrite find_assistant_loop_skip by assumption. reflexivity.
Qed.


Lemma find_assistant_loop_footprint (id_or_name : option string)
    (assistants : list Assistant) (w : world R)
    (r : outcome (option Assistant)) (w' : world R) :
  find_assistant_loop id_or_name assistants w = (r, w') ->
  heap w' = heap w /\ log w' = log w
  /\ (calls w' = calls w
      \/ exists asst, asst ∈ assistants
           /\ calls w' = calls w ++ [CallAssistantsRetrieve (asst_id asst)]).
Proof.
  induction assistants as [|asst rest IH]; cbn [find_assistant_loop].
  - intros [= _ <-]. auto.
  - assert (Hretrieve :
      (let* a := remote (CallAssistantsRetrieve (asst_id asst))
                        (beta_assistants_retrieve (asst_id asst)) in
       ret (Some a)) w = (r, w') ->
      heap w' = heap w /\ log w' = log w
      /\ (calls w' = calls w
          \/ exists a0, a0 ∈ asst :: rest
               /\ calls w' = calls w ++ [CallAssistantsRetrieve (asst_id a0)])).
    { unfold bind, remote, ret.
      destruct (beta_assistants_retrieve (asst_id asst) (service w)) as [[a|e] s''];
        intros [= _ <-]; (split; [reflexivity|]); (split; [reflexivity|]);
        right; exists asst; (split; [apply list_elem_of_here | reflexivity]). }
    destruct (bool_decide (Some (asst_id asst) = id_or_name)); [exact Hretrieve|].
    destruct (bool_decide (asst_name asst = id_or_name)); [exact Hretrieve|].
    intros Hrest. destruct (IH Hrest) as (Hh & Hl & [Hc | (a0 & Hin & Hc)]).
    + auto.
    + split; [assumption|]. split; [assumption|]. right. exists a0.
      split; [now apply list_elem_of_further | assumption].
Qed.

(** X9: whatever the outcome, [find_assistant] reads only: the store of
    managers and the log are unchanged, and it issues no call, or the list
    call alone, or the list call followed by one retrieve; it never
    creates. *)
Theorem find_assistant_footprint (self : ref) (id_or_name : option string)
    (w : world R) (r : outcome (option Assistant)) (w' : world R) :
  find_assistant self id_or_name w = (r, w') ->
  heap w' = heap w /\ log w' = log w
  /\ (calls w' = calls w
      \/ calls w' = calls w ++ [CallAssistantsList]
      \/ exists assistant_id,
           calls w' = calls w ++ [CallAssistantsList;
                                  CallAssistantsRetrieve assistant_id]).
Proof.
  unfold find_assistant. destruct (negb (str_truthy id_or_name)).
  - intros [= _ <-]. auto.
  - unfold bind, remote.
    destruct (beta_assistants_list (service w)) as [[assistants|e] s'].
    + destruct assistants as [|asst rest].
      * intros [= _ <-]. cbn. auto.
      * intros Hloop. apply find_assistant_loop_footprint in Hloop
          as (Hh & Hl & [Hc | (a0 & _ & Hc)]); cbn in Hh, Hl, Hc.
        -- auto.
        -- rewrite <- app_assoc in Hc. cbn in Hc. eauto 6.
    + intros [= _ <-]. cbn. auto.
Qed.

End FindAssistant.

Lemma find_assistant_no_match_witness :
  find_assistant (client := scripted) 0 (Some "Translator") empty_world
  = (Return None, mkWorld [] tt [CallAssistantsList] []).
Proof.
  apply (find_assistant_no_match (client := scripted) 0 (Some "Translator")
           [reviewer] tt empty_world);
    [reflexivity | reflexivity | repeat constructor].
Defined.


Lemma find_assistant_footprint_witness :
  heap (mkWorld (R := unit) [] tt [CallAssistantsList] []) = heap empty_world
  /\ log (mkWorld (R := unit) [] tt [CallAssistantsList] []) = log empty_world
  /\ (calls (mkWorld (R := unit) [] tt [CallAssistantsList] [])
      = calls empty_world
      \/ calls (mkWorld (R := unit) [] tt [CallAssistantsList] [])
         = calls empty_world ++ [CallAssistantsList]
      \/ exists assistant_id,
           calls (mkWorld (R := unit) [] tt [CallAssistantsList] [])
           = calls empty_world ++ [CallAssistantsList;
                                   CallAssistantsRetrieve assistant_id]).
Proof.
  apply (find_assistant_footprint (client := scripted) 0 (Some "Translator")
           empty_world (Return None)).
  reflexivity.
Defined.

(** ** Creating or reusing the assistant *)

Section CreateAssistant.

Context {R : Type} {client : OpenAI R}.

(** A successful call either found the assistant cached and changed no
    instance, or assigned the returned assistant to the instance. *)
Lemma create_assistant_success (self : ref) (name instructions : option string)
    (kw : kwargs) (w w' : world R) (a : Assistant) :
  create_assistant self name instructions kw w = (Return a, w') ->
  exists g, heap w !! self = Some g
    /\ ((heap w' = heap w /\ assistant g = Some a)
        \/ heap w' = <[self := set_assistant a g]> (heap w)).
Proof.
  unfold create_assistant. unfold bind at 1. unfold read.
  destruct (heap w !! self) as [g|] eqn:Hself; [|discriminate].
  intros Hrun. exists g. split; [reflexivity|].
  destruct (str_truthy name).
  - unfold bind at 1 in Hrun.
    destruct (find_assistant self name w) as [[found|e] w1] eqn:Hfind;
      [|discriminate].
    pose proof (heap_stable_find_assistant self name w _ w1 Hfind) as Hheap.
    destruct found as [asst|].
    + unfold bind, logger_info, emit, assign, ret in Hrun.
      cbn [heap service calls log] in Hrun. rewrite Hheap, Hself in Hrun.
      injection Hrun as <- <-. right. reflexivity.
    + unfold bind at 1 in Hrun. unfold remote in Hrun.
      destruct (beta_assistants_create _ _ _ _ _) as [[created|e] s2];
        [|discriminate].
      unfold bind, logger_info, emit, assign, ret in Hrun.
      cbn [heap service calls log] in Hrun. rewrite Hheap, Hself in Hrun.
      injection Hrun as <- <-. right. reflexivity.
  - destruct (assistant g) as [cached|]; [|discriminate].
    unfold bind, logger_info, emit, ret in Hrun.
    injection Hrun as <- <-. left. split; reflexivity.
Qed.

(** X10: after a successful [create_assistant], whichever branch was
    taken, the assistant it returned is the one cached on the instance,
    the cached file and thread are as before, and a further call with no
    name returns that same assistant without any remote call. *)
Theorem create_assistant_then_reuse (self : ref)
    (name instructions : option string) (kw : kwargs) (w w1 : world R)
    (a : Assistant) :
  create_assistant self name instructions kw w = (Return a, w1) ->
  (exists g g1,
      heap w !! self = Some g /\ heap w1 !! self = Some g1
      /\ assistant g1 = Some a
      /\ message_file g1 = message_file g /\ thread g1 = thread g)
  /\ forall instructions' kw',
      create_assistant self None instructions' kw' w1
      = (Return a,
         mkWorld (heap w1) (service w1) (calls w1)
                 (log w1 ++ [mkLog INFO "Using assistant found in object" []])).
Proof.
  intros Hrun.
  assert (Hcached : exists g g1,
             heap w !! self = Some g /\ heap w1 !! self = Some g1
             /\ assistant g1 = Some a
             /\ message_file g1 = message_file g /\ thread g1 = thread g).
  { apply create_assistant_success in Hrun as (g & Hself & [[Hheap Ha] | Hheap]).
    - exists g, g. rewrite Hheap. auto.
    - exists g, (set_assistant a g). rewrite Hheap.
      rewrite list_lookup_insert_eq by (eapply lookup_lt_Some; eassumption).
      auto. }
  split; [exact Hcached|].
  destruct Hcached as (g & g1 & _ & Hself1 & Ha & _).
  intros instructions' kw'. unfold create_assistant, bind, read.
  rewrite Hself1. cbn [str_truthy]. rewrite Ha. reflexivity.
Qed.

(** X11: with a name given, an assistant found on the service is cached
    and returned, one line is logged, and no create call is made, whatever
    was cached before. *)
Theorem create_assistant_found_on_service (self : ref) (g : GPT)
    (name instructions : option string) (kw : kwargs)
    (pre post : list Assistant) (asst found : Assistant) (s1 s2 : R)
    (w : world R) :
  str_truthy name = true ->
  heap w !! self = Some g ->
  beta_assistants_list (service w) = (Return (pre ++ asst :: post), s1) ->
  Forall (fun a => matches_assistant name a = false) pre ->
  matches_assistant name asst = true ->
  beta_assistants_retrieve (asst_id asst) s1 = (Return found, s2) ->
  create_assistant self name instructions kw w
  = (Return found,
     mkWorld (<[self := set_assistant found g]> (heap w)) s2
             (calls w ++ [CallAssistantsList;
                          CallAssistantsRetrieve (asst_id asst)])
             (log w ++ [mkLog INFO "Using existing assistant found on service" []])).
Proof.
  intros Hname Hself Hlist Hpre Hasst Hretrieve.
  assert (Hfind : find_assistant self name w
                  = (Return (Some found),
                     mkWorld (heap w) s2
                       (calls w ++ [CallAssistantsList;
                                    CallAssistantsRetrieve (asst_id asst)])
                       (log w))).
  { unfold find_assistant. rewrite Hname. cbn [negb].
    unfold bind at 1. unfold remote at 1. rewrite Hlist.
    destruct (pre ++ asst :: post) as [|first others] eqn:Hl;
      [destruct pre; discriminate|].
    rewrite <- Hl, find_assistant_loop_skip by assumption.
    rewrite find_assistant_loop_match by assumption.
    unfold bind, remote, ret. cbn [service heap calls log].
    rewrite Hretrieve, <- app_assoc. reflexivity. }
  unfold create_assistant. unfold bind at 1. unfold read.
  rewrite Hself, Hname. unfold bind at 1. rewrite Hfind.
  unfold bind, logger_info, emit, assign, ret.
  cbn [heap service calls log]. rewrite Hself. reflexivity.
Qed.

(** X12: with a name given that no listed assistant has as id or name, a
    new assistant is created; with no keyword arguments the request
    carries the model "gpt-3.5-turbo" and the one tool [file_search].  The
    created assistant is cached and returned. *)
Theorem create_assistant_creates_with_defaults (self : ref) (g : GPT)
    (name instructions : option string) (assistants : list Assistant)
    (created : Assistant) (s1 s2 : R) (w : world R) :
  str_truthy name = true ->
  heap w !! self = Some g ->
  beta_assistants_list (service w) = (Return assistants, s1) ->
  Forall (fun a => matches_assistant name a = false) assistants ->
  beta_assistants_create name "gpt-3.5-turbo" [mkTool "file_search"]
                         instructions s1 = (Return created, s2) ->
  create_assistant self name instructions no_kwargs w
  = (Return created,
     mkWorld (<[self := set_assistant created g]> (heap w)) s2
             (calls w ++ [CallAssistantsList; CallAssistantsCreate name])
             (log w ++ [mkLog INFO "Created new object, added to object" []])).
Proof.
  intros Hname Hself Hlist Hnone Hcreate.
  assert (Hfind : find_assistant self name w
                  = (Return None,
                     mkWorld (heap w) s1 (calls w ++ [CallAssistantsList])
                             (log w))).
  { unfold find_assistant. rewrite Hname. cbn [negb].
    unfold bind, remote. rewrite Hlist.
    destruct assistants as [|asst rest]; [reflexivity|].
    rewrite <- (app_nil_r (asst :: rest)).
    rewrite find_assistant_loop_skip by assumption. reflexivity. }
  unfold create_assistant. unfold bind at 1. unfold read.
  rewrite Hself, Hname. unfold bind at 1. rewrite Hfind.
  cbn [no_kwargs kw_tools kw_model default from_option id].
  unfold bind at 1. unfold remote. cbn [heap service calls log].
  rewrite Hcreate.
  unfold bind, logger_info, emit, assign, ret.
  cbn [heap service calls log]. rewrite Hself, <- app_assoc. reflexivity.
Qed.

End CreateAssistant.

Lemma create_assistant_then_reuse_witness :
  let w1 : world unit :=
    mkWorld [mkGPT (Some reviewer) None None] tt
            [CallAssistantsList; CallAssistantsRetrieve "asst_1"]
            [mkLog INFO "Using existing assistant found on service" []] in
  (exists g g1 : GPT,
      heap (world_with (mkGPT None None None)) !! 0 = Some g
      /\ heap w1 !! 0 = Some g1
      /\ assistant g1 = Some reviewer
      /\ message_file g1 = message_file g /\ thread g1 = thread g)
  /\ forall instructions' kw',
      create_assistant (client := scripted) 0 None instructions' kw' w1
      = (Return reviewer,
         mkWorld (heap w1) (service w1) (calls w1)
                 (log w1 ++ [mkLog INFO "Using assistant found in object" []])).
Proof.
  intros w1.
  apply (create_assistant_then_reuse (client := scripted) 0 (Some "Reviewer")
           None no_kwargs (world_with (mkGPT None None None))).
  reflexivity.
Defined.

Lemma create_assistant_found_on_service_witness :
  create_assistant (client := scripted) 0 (Some "Reviewer") None no_kwargs
    (world_with (mkGPT None None None))
  = (Return reviewer,
     mkWorld [mkGPT (Some reviewer) None None] tt
             [CallAssistantsList; CallAssistantsRetrieve "asst_1"]
             [mkLog INFO "Using existing assistant found on service" []]).
Proof.
  apply (create_assistant_found_on_service (client := scripted) 0
           (mkGPT None None None) (Some "Reviewer") None no_kwargs
           [] [] reviewer reviewer tt tt);
    [reflexivity | reflexivity | reflexivity | constructor
     | reflexivity | reflexivity].
Defined.

Lemma create_assistant_creates_with_defaults_witness :
  create_assistant (client := scripted) 0 (Some "Translator")
    (Some "You translate.") no_kwargs (world_with (mkGPT None None None))
  = (Return (mkAssistant "asst_2" (Some "Translator") "gpt-3.5-turbo"
                         [mkTool "file_search"] (Some "You translate.")),
     mkWorld [mkGPT (Some (mkAssistant "asst_2" (Some "Translator")
                             "gpt-3.5-turbo" [mkTool "file_search"]
                             (Some "You translate."))) None None] tt
             [CallAssistantsList; CallAssistantsCreate (Some "Translator")]
             [mkLog INFO "Created new object, added to object" []]).
Proof.
  apply (create_assistant_creates_with_defaults (client := scripted) 0
           (mkGPT None None None) (Some "Translator") (Some "You translate.")
           [reviewer]
           (mkAssistant "asst_2" (Some "Translator") "gpt-3.5-turbo"
                        [mkTool "file_search"] (Some "You translate."))
           tt tt (world_with (mkGPT None None None)));
    [reflexivity | reflexivity | reflexivity | repeat constructor | reflexivity].
Defined.

(** ** One instance at a time *)

Section Isolation.

Context {R : Type} {client : OpenAI R}.

Lemma heap_stable_touches_only {A} (self : ref) (m : M R A) :
  heap_stable m -> touches_only self m.
Proof.
  intros Hm w r w' Hrun. rewrite (Hm _ _ _ Hrun). split; [reflexivity | auto].
Qed.

Lemma touches_only_bind {A B} (self : ref) (m : M R A) (k : A -> M R B) :
  touches_only self m -> (forall a, touches_only self (k a)) ->
  touches_only self (bind m k).
Proof.
  intros Hm Hk w r w'. unfold bind.
  destruct (m w) as [[a|e] w1] eqn:Hmw.
  - intros Hkw. destruct (Hm _ _ _ Hmw) as [Hlen Hother].
    destruct (Hk _ _ _ _ Hkw) as [Hlen' Hother'].
    split; [congruence|]. intros other Hne.
    rewrite Hother', Hother by assumption. reflexivity.
  - intros [= _ <-]. exact (Hm _ _ _ Hmw).
Qed.

Lemma touches_only_assign (self : ref) (f : GPT -> GPT) :
  touches_only self (assign (R := R) self f).
Proof.
  intros w r w'. unfold assign.
  destruct (heap w !! self); intros [= _ <-]; cbn [heap].
  - split; [apply length_insert|].
    intros other Hne. now apply list_lookup_insert_ne.
  - split; [reflexivity | auto].
Qed.

Lemma touches_only_create_assistant (self : ref)
    (name instructions : option string) (kw : kwargs) :
  touches_only self (create_assistant self name instructions kw).
Proof.
  unfold create_assistant.
  apply touches_only_bind;
    [apply heap_stable_touches_only, heap_stable_read|]. intros g.
  destruct (str_truthy name).
  - apply touches_only_bind;
      [apply heap_stable_touches_only, heap_stable_find_assistant|].
    intros [asst|].
    + apply touches_only_bind;
        [apply heap_stable_touches_only, heap_stable_logger_info|]. intros _.
      apply touches_only_bind; [apply touches_only_assign|]. intros _.
      apply heap_stable_touches_only, heap_stable_ret.
    + apply touches_only_bind;
        [apply heap_stable_touches_only, heap_stable_remote|]. intros created.
      apply touches_only_bind; [apply touches_only_assign|]. intros _.
      apply touches_only_bind;
        [apply heap_stable_touches_only, heap_stable_logger_info|]. intros _.
      apply heap_stable_touches_only, heap_stable_ret.
  - destruct (assistant g).
    + apply heap_stable_touches_only, heap_stable_bind;
        [apply heap_stable_logger_info | intros _; apply heap_stable_ret].
    + apply heap_stable_touches_only, heap_stable_raise.
Qed.

Lemma touches_only_attach_file (self : ref) (_path : option string) :
  touches_only self (attach_file self _path).
Proof.
  unfold attach_file.
  apply touches_only_bind;
    [apply heap_stable_touches_only, heap_stable_remote|]. intros f.
  apply touches_only_assign.
Qed.

Lemma touches_only_create_thread (self : ref) (content : option string)
    (kw : kwargs) :
  touches_only self (create_thread self content kw).
Proof.
  unfold create_thread. destruct (negb (str_truthy content)).
  - apply heap_stable_touches_only, heap_stable_raise.
  - apply touches_only_bind;
      [apply heap_stable_touches_only, heap_stable_read|]. intros g.
    destruct (message_file g).
    + apply touches_only_bind;
        [apply heap_stable_touches_only, heap_stable_remote|]. intros t.
      apply touches_only_assign.
    + apply heap_stable_touches_only, heap_stable_raise.
Qed.

(** X13: a method called on one manager changes no other manager and
    never adds or removes one, whatever its outcome. *)
Theorem methods_touch_only_self (self other : ref) (w w' : world R) :
  other <> self ->
  (forall name instructions kw r,
     create_assistant self name instructions kw w = (r, w') ->
     heap w' !! other = heap w !! other /\ length (heap w') = length (heap w))
  /\ (forall _path r,
        attach_file self _path w = (r, w') ->
        heap w' !! other = heap w !! other /\ length (heap w') = length (heap w))
  /\ (forall content kw r,
        create_thread self content kw w = (r, w') ->
        heap w' !! other = heap w !! other /\ length (heap w') = length (heap w))
  /\ (forall r,
        get_response self w = (r, w') ->
        heap w' !! other = heap w !! other /\ length (heap w') = length (heap w)).
Proof.
  intros Hne. split; [|split; [|split]].
  - intros name instructions kw r Hrun.
    destruct (touches_only_create_assistant _ _ _ _ _ _ _ Hrun). auto.
  - intros _path r Hrun.
    destruct (touches_only_attach_file _ _ _ _ _ Hrun). auto.
  - intros content kw r Hrun.
    destruct (touches_only_create_thread _ _ _ _ _ _ Hrun). auto.
  - intros r Hrun. rewrite (heap_stable_get_response _ _ _ _ Hrun). auto.
Qed.

(** X14: a method that raises, whatever the exception (a guard, a
    missing file handle, a failure of the remote call or of reading the
    file), has assigned no field: every manager is as before the call. *)
Theorem failure_assigns_nothing (self : ref) (e : exn) (w w' : world R) :
  (forall name instructions kw,
     create_assistant self name instructions kw w = (Raise e, w') ->
     heap w' = heap w)
  /\ (forall _path,
        attach_file self _path w = (Raise e, w') -> heap w' = heap w)
  /\ (forall content kw,
        create_thread self content kw w = (Raise e, w') -> heap w' = heap w)
  /\ (get_response self w = (Raise e, w') -> heap w' = heap w).
Proof.
  split; [|split; [|split]].
  - intros name instructions kw. apply raise_stable_create_assistant.
  - intros _path. apply raise_stable_attach_file.
  - intros content kw. apply raise_stable_create_thread.
  - apply heap_stable_get_response.
Qed.

(** X15: [create_thread] with content but no file attached raises an
    [AttributeError] on the missing handle before anything is sent: the
    world is as it was. *)
Theorem create_thread_without_file (self : ref) (g : GPT)
    (content : option string) (kw : kwargs) (w : world R) :
  str_truthy content = true -> heap w !! self = Some g ->
  message_file g = None ->
  create_thread self content kw w = (Raise (AttributeError "id"), w).
Proof.
  intros Hcontent Hself Hfile. unfold create_thread. rewrite Hcontent.
  cbn [negb]. unfold bind, read. rewrite Hself, Hfile. reflexivity.
Qed.

(** X16: attaching a file and then creating the thread sends one seed
    message, of role "user" when no role is given, with the content and
    one attachment that names the file just uploaded and the
    [file_search] tool; the instance then caches that file and the thread,
    and keeps its assistant. *)
Theorem attach_file_then_create_thread (self : ref) (g : GPT)
    (_path content : option string) (f : FileObject) (t : Thread)
    (s1 s2 : R) (w : world R) :
  heap w !! self = Some g ->
  files_create _path (service w) = (Return f, s1) ->
  str_truthy content = true ->
  beta_threads_create
    [mkThreadMessage "user" content
       [mkAttachment (file_object_id f) [mkTool "file_search"]]] s1
  = (Return t, s2) ->
  (attach_file self _path ;; create_thread self content no_kwargs) w
  = (Return tt,
     mkWorld (<[self := mkGPT (assistant g) (Some f) (Some t)]> (heap w)) s2
             (calls w ++
                [CallFilesCreate _path;
                 CallThreadsCreate
                   [mkThreadMessage "user" content
                      [mkAttachment (file_object_id f) [mkTool "file_search"]]]])
             (log w)).
Proof.
  intros Hself Hupload Hcontent Hthread.
  assert (Hlt : self < length (heap w)) by (eapply lookup_lt_Some; eassumption).
  unfold attach_file, create_thread. rewrite Hcontent. cbn [negb].
  unfold bind at 1. unfold bind at 1. unfold remote at 1. rewrite Hupload.
  unfold assign at 1. cbn [heap service calls log]. rewrite Hself.
  unfold bind at 1. unfold read. cbn [heap service calls log].
  rewrite list_lookup_insert_eq by assumption.
  cbn [set_message_file message_file no_kwargs kw_role default from_option id].
  unfold bind, remote, assign. cbn [heap service calls log].
  rewrite Hthread. cbn [heap service calls log].
  rewrite list_lookup_insert_eq by assumption.
  rewrite list_insert_insert_eq, <- app_assoc. reflexivity.
Qed.

End Isolation.

Lemma methods_touch_only_self_witness :
  let w : world unit :=
    mkWorld [mkGPT None None None; mkGPT (Some reviewer) None None] tt [] [] in
  let w' : world unit :=
    mkWorld [mkGPT None (Some (mkFileObject "file_1")) None;
             mkGPT (Some reviewer) None None] tt
            [CallFilesCreate (Some "report.pdf")] [] in
  heap w' !! 1 = heap w !! 1 /\ length (heap w') = length (heap w).
Proof.
  intros w w'.
  pose proof (methods_touch_only_self (client := scripted) 0 1 w w')
    as Hmethods.
  destruct Hmethods as (_ & Hattach & _); [discriminate|].
  apply (Hattach (Some "report.pdf") (Return tt)). reflexivity.
Defined.

Lemma failure_assigns_nothing_witness :
  heap (world_with (mkGPT (Some reviewer) None None))
  = heap (world_with (mkGPT (Some reviewer) None None)).
Proof.
  pose proof (failure_assigns_nothing (client := scripted) 0
                (AttributeError "id")
                (world_with (mkGPT (Some reviewer) None None))
                (world_with (mkGPT (Some reviewer) None None)))
    as (_ & _ & Hthread & _).
  apply (Hthread (Some "Summarize this.") no_kwargs). reflexivity.
Defined.

Lemma create_thread_without_file_witness :
  create_thread (client := scripted) 0 (Some "Summarize this.") no_kwargs
    (world_with (mkGPT (Some reviewer) None None))
  = (Raise (AttributeError "id"), world_with (mkGPT (Some reviewer) None None)).
Proof.
  apply (create_thread_without_file (client := scripted) 0
           (mkGPT (Some reviewer) None None));
    reflexivity.
Defined.

Lemma attach_file_then_create_thread_witness :
  (attach_file (client := scripted) 0 (Some "report.pdf") ;;
   create_thread (client := scripted) 0 (Some "Summarize this.") no_kwargs)
    (world_with (mkGPT (Some reviewer) None None))
  = (Return tt,
     mkWorld [mkGPT (Some reviewer) (Some (mkFileObject "file_1"))
                    (Some (mkThread "thread_1"))] tt
             [CallFilesCreate (Some "report.pdf");
              CallThreadsCreate
                [mkThreadMessage "user" (Some "Summarize this.")
                   [mkAttachment "file_1" [mkTool "file_search"]]]]
             []).
Proof.
  apply (attach_file_then_create_thread (client := scripted) 0
           (mkGPT (Some reviewer) None None) (Some "report.pdf")
           (Some "Summarize this.") (mkFileObject "file_1")
           (mkThread "thread_1") tt tt
           (world_with (mkGPT (Some reviewer) None None)));
    reflexivity.
Defined.

(** ** The response *)

Section Response.

Context {R : Type} {client : OpenAI R}.

(** On the handler object, whose models store their fields, the three
    token paths resolve without raising. *)
Lemma token_path_returns (h : EventHandler) (run : option Run) (token : string) :
  token ∈ ["completion_tokens"; "prompt_tokens"; "total_tokens"] ->
  exists v records,
    attribute_puller ["_AssistantEventHandler__current_run"; "usage"; token]
                     (stream_object h run)
    = (Return v, records).
Proof.
  intros Hin.
  destruct h as [[text|]];
    destruct run as [[[[completion prompt total]|]]|];
    repeat (apply elem_of_cons in Hin as [->|Hin]);
    try (apply elem_of_nil in Hin; contradiction);
    try destruct completion; try destruct prompt; try destruct total;
    vm_compute; eexists _, _; reflexivity.
Qed.

(** The token-count lines never raise. *)
Lemma log_tokens_returns (format token : string) (h : EventHandler)
    (run : option Run) (w : world R) :
  token ∈ ["completion_tokens"; "prompt_tokens"; "total_tokens"] ->
  exists w',
    log_tokens format ["_AssistantEventHandler__current_run"; "usage"; token]
               (stream_object h run) w
    = (Return tt, w').
Proof.
  intros Hin. unfold log_tokens.
  destruct (token_path_returns h run token Hin) as (v & records & ->).
  eexists. reflexivity.
Qed.

(** Once the stream call has answered, the result of [get_response] is
    what the handler collected over the events. *)
Lemma get_response_streamed (self : ref) (g : GPT) (th : Thread)
    (a : Assistant) (run : StreamRun) (s' : R) (w : world R) :
  heap w !! self = Some g -> thread g = Some th -> assistant g = Some a ->
  beta_threads_runs_stream (thread_id th) (asst_id a) (service w)
  = (Return run, s') ->
  fst (get_response self w)
  = match fst (until_done (events run) (EventHandler_init None)
                 (mkWorld (heap w) s'
                    (calls w ++ [CallRunsStream (thread_id th) (asst_id a)])
                    (log w))) with
    | Return h => Return (parse_response h)
    | Raise e => Raise e
    end.
Proof.
  intros Hself Hth Ha Hstream. unfold get_response.
  unfold bind at 1. unfold read. rewrite Hself, Hth, Ha.
  unfold bind at 1. unfold remote. rewrite Hstream.
  unfold bind at 1.
  destruct (until_done _ _ _) as [[h|e] w1]; [|reflexivity].
  cbn [fst]. unfold bind.
  destruct (log_tokens_returns "completion_tokens: %s" "completion_tokens"
              h (current_run run) w1) as [w2 ->];
    [repeat constructor|].
  destruct (log_tokens_returns "prompt_tokens: %s" "prompt_tokens"
              h (current_run run) w2) as [w3 ->];
    [repeat constructor|].
  destruct (log_tokens_returns "total_tokens: %s" "total_tokens"
              h (current_run run) w3) as [w4 ->];
    [repeat constructor|].
  reflexivity.
Qed.

Lemma until_done_raises (evs : list StreamEvent) :
  forall h (w : world R) e w',
    until_done evs h w = (Raise e, w') ->
    e = IndexError \/ e = AttributeError "text".
Proof.
  induction evs as [|ev rest IH]; intros h w e w'; cbn [until_done].
  - discriminate.
  - unfold bind at 1.
    destruct (dispatch h ev w) as [[h1|e1] w1] eqn:Hdispatch.
    + apply IH.
    + intros [= <- <-]. destruct ev; cbn [dispatch] in Hdispatch.
      * discriminate.
      * discriminate.
      * unfold on_message_done in Hdispatch.
        destruct (content message) as [|[t|file] blocks]; cbn in Hdispatch;
          try discriminate; injection Hdispatch as <- _; auto.
Qed.

Lemma until_done_no_message_done (evs : list StreamEvent) :
  Forall (fun ev => is_message_done ev = false) evs ->
  forall h (w : world R), fst (until_done evs h w) = Return h.
Proof.
  induction 1 as [|ev rest Hev _ IH]; intros h w; [reflexivity|].
  cbn [until_done]. unfold bind at 1.
  destruct ev; [| |discriminate]; cbn [dispatch];
    unfold bind, logger_info, emit, ret; apply IH.
Qed.

Lemma until_done_finalizable (evs : list StreamEvent) :
  Forall (fun ev => finalizable ev = true) evs ->
  forall h (w : world R), exists h' w', until_done evs h w = (Return h', w').
Proof.
  induction 1 as [|ev rest Hev _ IH]; intros h w; [eexists _, _; reflexivity|].
  cbn [until_done]. unfold bind at 1.
  destruct ev as [text|type|message]; cbn [dispatch].
  - unfold bind, logger_info, emit, ret. apply IH.
  - unfold bind, logger_info, emit, ret. apply IH.
  - unfold finalizable in Hev. unfold on_message_done.
    destruct (content message) as [|[t|file] blocks]; try discriminate.
    unfold ret. apply IH.
Qed.

Lemma until_done_app (pre post : list StreamEvent) :
  forall h (w : world R),
    until_done (pre ++ post) h w
    = match until_done pre h w with
      | (Return h1, w1) => until_done post h1 w1
      | (Raise e, w1) => (Raise e, w1)
      end.
Proof.
  induction pre as [|ev rest IH]; intros h w; [reflexivity|].
  cbn [app until_done]. unfold bind.
  destruct (dispatch h ev w) as [[h1|e] w1]; [apply IH | reflexivity].
Qed.

(** X17: with a thread and an assistant cached and the stream call
    answered, [get_response] can fail only in the finalization of a
    message: with [IndexError] when the message has no content block, or
    [AttributeError] when its first block is not a text.  Logging the
    token counts never fails. *)
Theorem get_response_failures (self : ref) (g : GPT) (th : Thread)
    (a : Assistant) (run : StreamRun) (s' : R) (w : world R) (e : exn) :
  heap w !! self = Some g -> thread g = Some th -> assistant g = Some a ->
  beta_threads_runs_stream (thread_id th) (asst_id a) (service w)
  = (Return run, s') ->
  fst (get_response self w) = Raise e ->
  e = IndexError \/ e = AttributeError "text".
Proof.
  intros Hself Hth Ha Hstream.
  rewrite (get_response_streamed self g th a run s' w) by assumption.
  destruct (until_done _ _ _) as [[h|e1] w1] eqn:Hdone; cbn [fst];
    [discriminate|].
  intros [= <-]. eapply until_done_raises. exact Hdone.
Qed.

(** X18: when the run finalizes no message, [get_response] returns
    [None]. *)
Theorem get_response_without_message (self : ref) (g : GPT) (th : Thread)
    (a : Assistant) (run : StreamRun) (s' : R) (w : world R) :
  heap w !! self = Some g -> thread g = Some th -> assistant g = Some a ->
  beta_threads_runs_stream (thread_id th) (asst_id a) (service w)
  = (Return run, s') ->
  Forall (fun ev => is_message_done ev = false) (events run) ->
  fst (get_response self w) = Return None.
Proof.
  intros Hself Hth Ha Hstream Hnone.
  rewrite (get_response_streamed self g th a run s' w) by assumption.
  rewrite until_done_no_message_done by assumption. reflexivity.
Qed.

(** X19: when the run finalizes several messages, the last one is the
    response: [get_response] returns the rewritten text of the last
    finalized message, provided the earlier events raise nothing. *)
Theorem get_response_last_message (self : ref) (g : GPT) (th : Thread)
    (a : Assistant) (run : StreamRun) (s' : R) (w : world R)
    (pre post : list StreamEvent) (message : Message) (message_content : Text)
    (blocks : list ContentBlock) :
  heap w !! self = Some g -> thread g = Some th -> assistant g = Some a ->
  beta_threads_runs_stream (thread_id th) (asst_id a) (service w)
  = (Return run, s') ->
  events run = pre ++ MessageDone message :: post ->
  Forall (fun ev => finalizable ev = true) pre ->
  content message = TextContentBlock message_content :: blocks ->
  Forall (fun ev => is_message_done ev = false) post ->
  fst (get_response self w)
  = Return (Some (replace_annotations 0 (annotations message_content)
                                      (text_value message_content))).
Proof.
  intros Hself Hth Ha Hstream Hevents Hpre Hcontent Hpost.
  rewrite (get_response_streamed self g th a run s' w) by assumption.
  rewrite Hevents, until_done_app.
  destruct (until_done_finalizable pre Hpre (EventHandler_init None)
              (mkWorld (heap w) s'
                 (calls w ++ [CallRunsStream (thread_id th) (asst_id a)])
                 (log w))) as (h1 & w1 & ->).
  cbn [until_done]. unfold bind at 1. cbn [dispatch].
  unfold on_message_done. rewrite Hcontent. unfold ret at 1.
  rewrite until_done_no_message_done by assumption. reflexivity.
Qed.

End Response.

Lemma get_response_failures_witness :
  IndexError = IndexError \/ IndexError = AttributeError "text".
Proof.
  apply (get_response_failures
           (client := {|
              beta_assistants_list := fun s => (Return [reviewer], s);
              beta_assistants_retrieve := fun _ s => (Return reviewer, s);
              beta_assistants_create := fun _ _ _ _ s => (Return reviewer, s);
              files_create := fun _ s => (Return (mkFileObject "file_1"), s);
              beta_threads_create := fun _ s => (Return (mkThread "thread_1"), s);
              beta_threads_runs_stream := fun _ _ s =>
                (Return (mkStreamRun [MessageDone (mkMessage [])] None), s)
            |})
           0 (mkGPT (Some reviewer) None (Some (mkThread "thread_1")))
           (mkThread "thread_1") reviewer
           (mkStreamRun [MessageDone (mkMessage [])] None) tt
           (world_with (mkGPT (Some reviewer) None (Some (mkThread "thread_1")))));
    reflexivity.
Defined.

Lemma get_response_without_message_witness :
  fst (get_response (client := silent) 0
         (world_with (mkGPT (Some reviewer) None (Some (mkThread "thread_1")))))
  = Return None.
Proof.
  apply (get_response_without_message (client := silent) 0
           (mkGPT (Some reviewer) None (Some (mkThread "thread_1")))
           (mkThread "thread_1") reviewer
           (mkStreamRun [TextCreated (mkText "See" []);
                         ToolCallCreated "file_search"] scripted_run) tt);
    [reflexivity | reflexivity | reflexivity | reflexivity
     | repeat constructor].
Defined.

Lemma get_response_last_message_witness :
  fst (get_response (client := two_messages) 0
         (world_with (mkGPT (Some reviewer) None (Some (mkThread "thread_1")))))
  = Return (Some (replace_annotations 0 [mkAnnotation "[cite1]" 4 11]
                    "See [cite1] for details.")).
Proof.
  apply (get_response_last_message (client := two_messages) 0
           (mkGPT (Some reviewer) None (Some (mkThread "thread_1")))
           (mkThread "thread_1") reviewer
           (mkStreamRun [ToolCallCreated "file_search";
                         MessageDone draft_message;
                         TextCreated (mkText "See" []);
                         MessageDone cited_message;
                         ToolCallCreated "file_search"] scripted_run) tt
           (world_with (mkGPT (Some reviewer) None (Some (mkThread "thread_1"))))
           [ToolCallCreated "file_search"; MessageDone draft_message;
            TextCreated (mkText "See" [])]
           [ToolCallCreated "file_search"] cited_message
           (mkText "See [cite1] for details." [mkAnnotation "[cite1]" 4 11]) []);
    try reflexivity; repeat constructor.
Defined.

(** The run of [two_messages]: the draft is collected first and then
    replaced by the final message. *)
Example get_response_two_messages :
  fst (until_done (R := unit) [ToolCallCreated "file_search";
                               MessageDone draft_message] (EventHandler_init None)
         empty_world)
  = Return (mkEventHandler (Some "Draft [0]."))
  /\ fst (get_response (client := two_messages) 0
            (world_with (mkGPT (Some reviewer) None (Some (mkThread "thread_1")))))
     = Return (Some "See [0] for details.").
Proof. vm_compute. split; reflexivity. Qed.

(** ** More on the entry point *)

Section EntryPointMore.

Context {R : Type} {client : OpenAI R}.

(** X20: with no manager supplied and no assistant name, the call
    fails with the missing-name error on the new instance before any
    remote call: nothing is listed, uploaded or created. *)
Theorem send_pdf_to_openai_fresh_needs_name
    (assistant_name assistant_instructions thread_content file_path : option string)
    (w : world R) :
  str_truthy assistant_name = false ->
  send_pdf_to_openai assistant_name assistant_instructions thread_content
                     file_path None w
  = (Raise (RuntimeError "Missing name for assistant creation in GPT"),
     mkWorld (heap w ++ [mkGPT None None None]) (service w) (calls w) (log w)).
Proof.
  intros Hname. unfold send_pdf_to_openai.
  unfold bind at 1. unfold bind at 1. unfold GPT_init, ret. cbn [fst snd].
  unfold bind at 1. unfold create_assistant, bind, read. cbn [heap].
  rewrite list_lookup_middle by reflexivity.
  rewrite Hname. reflexivity.
Qed.

(** X21: with no manager supplied and no thread content, the call never
    returns a text, and the content is checked only after the assistant
    step and the upload: if those two succeed, the missing-content error
    is raised in the world they left. *)
Theorem send_pdf_to_openai_fresh_needs_content
    (assistant_name assistant_instructions thread_content file_path : option string)
    (w : world R) :
  str_truthy thread_content = false ->
  send_pdf_to_openai assistant_name assistant_instructions thread_content
                     file_path None w
  = match (let* fresh := GPT_init in
           create_assistant fresh assistant_name assistant_instructions
                            no_kwargs ;;
           attach_file fresh file_path) w with
    | (Return _, w') =>
        (Raise (RuntimeError "No content provided for create_thread [hqt673]"),
         w')
    | (Raise e, w') => (Raise e, w')
    end.
Proof.
  intros Hcontent. rewrite send_pdf_to_openai_fresh.
  unfold bind, GPT_init.
  destruct (create_assistant _ _ _ _ _) as [[a|e] w1]; [|reflexivity].
  destruct (attach_file _ _ _) as [[u|e] w2]; [|reflexivity].
  unfold create_thread. rewrite Hcontent. reflexivity.
Qed.

Lemma touches_only_fresh_steps (fresh : ref)
    (assistant_name assistant_instructions thread_content file_path : option string) :
  touches_only fresh
    (create_assistant fresh assistant_name assistant_instructions no_kwargs ;;
     attach_file fresh file_path ;;
     create_thread fresh thread_content no_kwargs ;;
     get_response fresh).
Proof.
  apply touches_only_bind; [apply touches_only_create_assistant|]. intros _.
  apply touches_only_bind; [apply touches_only_attach_file|]. intros _.
  apply touches_only_bind; [apply touches_only_create_thread|]. intros _.
  apply heap_stable_touches_only, heap_stable_get_response.
Qed.

(** X22: with no manager supplied, whatever the outcome, the call adds
    exactly one manager to the store and leaves every manager that existed
    before as it was. *)
Theorem send_pdf_to_openai_fresh_store
    (assistant_name assistant_instructions thread_content file_path : option string)
    (w w' : world R) (r : outcome (option string)) :
  send_pdf_to_openai assistant_name assistant_instructions thread_content
                     file_path None w = (r, w') ->
  exists g, heap w' = heap w ++ [g].
Proof.
  rewrite send_pdf_to_openai_fresh. unfold bind at 1. unfold GPT_init.
  intros Hrun. apply touches_only_fresh_steps in Hrun as [Hlen Hother].
  cbn [heap] in Hlen, Hother. rewrite length_app in Hlen. cbn in Hlen.
  destruct (heap w' !! length (heap w)) as [g|] eqn:Hg;
    [|apply lookup_ge_None in Hg; lia].
  exists g. apply list_eq. intros i.
  destruct (decide (i = length (heap w))) as [->|Hne].
  - rewrite Hg, list_lookup_middle; reflexivity.
  - rewrite Hother by assumption.
    destruct (decide (i < length (heap w))) as [Hlt|Hge].
    + rewrite !lookup_app_l by assumption. reflexivity.
    + rewrite !lookup_ge_None_2; [reflexivity | |];
        rewrite length_app; cbn; lia.
Qed.

End EntryPointMore.

Lemma send_pdf_to_openai_fresh_needs_name_witness :
  send_pdf_to_openai (client := scripted) None None (Some "Summarize this.")
    (Some "report.pdf") None empty_world
  = (Raise (RuntimeError "Missing name for assistant creation in GPT"),
     mkWorld [mkGPT None None None] tt [] []).
Proof.
  apply (send_pdf_to_openai_fresh_needs_name (client := scripted) None None
           (Some "Summarize this.") (Some "report.pdf") empty_world).
  reflexivity.
Defined.

Lemma send_pdf_to_openai_fresh_needs_content_witness :
  send_pdf_to_openai (client := scripted) (Some "Reviewer") None None
    (Some "report.pdf") None empty_world
  = (Raise (RuntimeError "No content provided for create_thread [hqt673]"),
     mkWorld [mkGPT (Some reviewer) (Some (mkFileObject "file_1")) None] tt
             [CallAssistantsList; CallAssistantsRetrieve "asst_1";
              CallFilesCreate (Some "report.pdf")]
             [mkLog INFO "Using existing assistant found on service" []]).
Proof.
  apply (send_pdf_to_openai_fresh_needs_content (client := scripted)
           (Some "Reviewer") None None (Some "report.pdf") empty_world).
  reflexivity.
Defined.

Lemma send_pdf_to_openai_fresh_store_witness :
  exists g,
    heap (snd (send_pdf_to_openai (client := scripted) (Some "Reviewer") None
                 (Some "Summarize this.") (Some "report.pdf") None
                 (world_with (mkGPT None None None))))
    = heap (world_with (mkGPT None None None)) ++ [g].
Proof.
  apply (send_pdf_to_openai_fresh_store (client := scripted) (Some "Reviewer")
           None (Some "Summarize this.") (Some "report.pdf")
           (world_with (mkGPT None None None)) _
           (fst (send_pdf_to_openai (client := scripted) (Some "Reviewer") None
                   (Some "Summarize this.") (Some "report.pdf") None
                   (world_with (mkGPT None None None))))).
  apply surjective_pairing.
Defined.
